(** * Build-graph emitter of scripts/configure.py

    A shallow embedding of [scripts/configure.py]: the translation of the
    splitter's link entries into ninja rules and build edges
    ([build_stuff] with its closure [build]), the two clean-up commands
    ([clean], [--cleansrc]) and the command-line dispatch ([main]).

    The script is effectful Python: it mutates a set, writes through a
    [ninja_syntax.Writer], prints, touches the file system and leaves
    through [sys.exit] or an uncaught exception.  All of that is threaded
    through one state-and-exception monad [M] over a record [World]. *)

From Stdlib Require Import ZArith Ascii String.
From stdpp Require Import base tactics option list gmap strings.

Local Open Scope Z_scope.

(** ** Paths

    A [pathlib.Path] is kept as its string form ([str(p)]); two paths are
    equal exactly when their string forms are, which is how the set
    [built_objects] compares them on POSIX. *)

Definition Path : Type := string.

Definition str (p : Path) : string := p.

(** [s.rfind(c)]: the index of the last occurrence of [c], if any. *)
Fixpoint rfind (c : ascii) (s : string) : option nat :=
  match s with
  | EmptyString => None
  | String a s' =>
      match rfind c s' with
      | Some i => Some (S i)
      | None => if Ascii.eqb a c then Some 0%nat else None
      end
  end.

(** [PurePath.name]: the last component of the path. *)
Definition name (p : Path) : string :=
  match rfind "/" p with
  | Some i => String.substring (S i) (String.length p - S i) p
  | None => p
  end.

(** [PurePath.suffix]: with [i = name.rfind('.')], the text [name[i:]]
    when [0 < i < len(name) - 1], and the empty string otherwise. *)
Definition suffix (p : Path) : string :=
  let n := name p in
  match rfind "." n with
  | Some i =>
      if (0 <? i)%nat && (i <? String.length n - 1)%nat
      then String.substring i (String.length n - i) n
      else EmptyString
  | None => EmptyString
  end.

(** [p / q] for a one-component [q]: nothing is put between a root (["/"]
    or ["//"]) and [q]. *)
Definition joinpath (p : Path) (q : string) : Path :=
  if String.eqb p "." then q
  else if String.eqb p "/" || String.eqb p "//" then p +:+ q
  else p +:+ "/" +:+ q.

(** ** Link entries *)

(** Modelled from the spec: the segment classes of the splitting library
    ([splat.segtypes.common], which is not part of this repository) that
    [build_stuff] tests with [isinstance].  The spec's data model gives a
    link entry exactly one segment-type tag out of raw-assembly, raw-data,
    binary-data-blob, binary-rodata-blob and compiled-C, or none of them;
    [CommonSegOther] stands for every class outside those five. *)
Inductive SegClass : Type :=
  | CommonSegAsm
  | CommonSegData
  | CommonSegDatabin
  | CommonSegRodatabin
  | CommonSegC
  | CommonSegOther.

Global Instance SegClass_eq_dec : EqDecision SegClass.
Proof. solve_decision. Defined.

(** A segment as [build_stuff] observes it: the string [seg.type] and the
    class it is an instance of. *)
Record Segment : Type := {
  type : string;
  class : SegClass;
}.

Definition isinstance (seg : Segment) (c : SegClass) : bool :=
  bool_decide (class seg = c).

(** [splat.segtypes.linker_entry.LinkerEntry], restricted to the attributes
    read by the script. *)
Record LinkerEntry : Type := {
  segment : Segment;
  object_path : option Path;
  src_paths : list Path;
}.

(** ** The ninja writer *)

(** One [ninja.rule(name, command, description=...)] call. *)
Record Rule : Type := {
  rule_name : string;
  description : string;
  command : string;
}.

(** One [ninja.build(outputs, rule, inputs, implicit=..., variables=...,
    implicit_outputs=...)] call; an omitted or empty argument is the empty
    list. *)
Record Build : Type := {
  outputs : list string;
  rule : string;
  inputs : list string;
  implicit : list string;
  variables : list (string * string);
  implicit_outputs : list string;
}.

(** The file behind [ninja_syntax.Writer(open(path, "w"))]: what has been
    written to it so far, in order. *)
Record Writer : Type := {
  output : Path;
  rules : list Rule;
  builds : list Build;
}.

(** ** The world *)

(** An entry of the working directory. *)
#[warnings="-register-all"]
Inductive node : Type :=
  | File (data : string)
  | Dir (children : list (string * node)).

Record World : Type := {
  fs : gmap string node;        (* entries of the working directory, by name *)
  ninja : option Writer;        (* [None] until the writer is opened *)
  built_objects : gset Path;
  stdout : list string;         (* the lines printed so far *)
}.

Inductive exn : Type :=
  | SystemExit (code : Z)
  | IndexError
  | IsADirectoryError
  | FileNotFoundError
  | ExternalError (msg : string).

Inductive result (A : Type) : Type :=
  | Ok (a : A)
  | Raise (e : exn).
Global Arguments Ok {A} a.
Global Arguments Raise {A} e.

Definition M (A : Type) : Type := World → World * result A.

Global Instance M_ret : MRet M := λ A a w, (w, Ok a).

Global Instance M_bind : MBind M := λ A B f m w,
  match m w with
  | (w', Ok a) => f a w'
  | (w', Raise e) => (w', Raise e)
  end.

Definition raise {A : Type} (e : exn) : M A := λ w, (w, Raise e).

(** The status the process ends with: 0 when the script runs to its end,
    the code of [sys.exit], and 1 for any other uncaught exception. *)
Definition exit_status {A : Type} (r : result A) : Z :=
  match r with
  | Ok _ => 0
  | Raise (SystemExit n) => n
  | Raise _ => 1
  end.

(** [for x in l: body(x)] *)
Fixpoint for_each {A : Type} (l : list A) (body : A → M unit) : M unit :=
  match l with
  | [] => mret tt
  | x :: l' => body x ;; for_each l' body
  end.

(** *** Primitive effects *)

(** [s[i]] on a string. *)
Definition getitem (s : string) (i : nat) : M string := λ w,
  match String.get i s with
  | Some c => (w, Ok (String c EmptyString))
  | None => (w, Raise IndexError)
  end.

Definition print (line : string) : M unit := λ w,
  ({| fs := fs w; ninja := ninja w; built_objects := built_objects w;
      stdout := stdout w ++ [line] |}, Ok tt).

Definition sys_exit {A : Type} (code : Z) : M A := raise (SystemExit code).

Definition set_built_objects (s : gset Path) : M unit := λ w,
  ({| fs := fs w; ninja := ninja w; built_objects := s;
      stdout := stdout w |}, Ok tt).

Definition get_built_objects : M (gset Path) := λ w, (w, Ok (built_objects w)).

(** [built_objects.add(p)] *)
Definition built_objects_add (p : Path) : M unit := λ w,
  ({| fs := fs w; ninja := ninja w; built_objects := {[p]} ∪ built_objects w;
      stdout := stdout w |}, Ok tt).

Definition set_ninja (o : option Writer) (w : World) : World :=
  {| fs := fs w; ninja := o; built_objects := built_objects w;
     stdout := stdout w |}.

(** [ninja = ninja_syntax.Writer(open(path, "w"), ...)]: the file is created
    or truncated. *)
Definition ninja_open (path : Path) : M unit := λ w,
  (set_ninja (Some {| output := path; rules := []; builds := [] |}) w, Ok tt).

Definition add_rule (r : Rule) (wr : Writer) : Writer :=
  {| output := output wr; rules := rules wr ++ [r]; builds := builds wr |}.

Definition add_build (b : Build) (wr : Writer) : Writer :=
  {| output := output wr; rules := rules wr; builds := builds wr ++ [b] |}.

Definition ninja_rule (name command description : string) : M unit := λ w,
  (set_ninja
     (add_rule {| rule_name := name; description := description;
                  command := command |} <$> ninja w) w, Ok tt).

Definition ninja_build (outputs : list string) (rule : string)
    (inputs implicit : list string) (variables : list (string * string))
    (implicit_outputs : list string) : M unit := λ w,
  (set_ninja
     (add_build {| outputs := outputs; rule := rule; inputs := inputs;
                   implicit := implicit; variables := variables;
                   implicit_outputs := implicit_outputs |} <$> ninja w) w,
   Ok tt).

Definition set_fs (m : gmap string node) (w : World) : World :=
  {| fs := m; ninja := ninja w; built_objects := built_objects w;
     stdout := stdout w |}.

(** [os.path.exists(p)] for an entry [p] of the working directory. *)
Definition os_path_exists (p : string) : M bool := λ w,
  (w, Ok (bool_decide (is_Some (fs w !! p)))).

(** [os.remove(p)]: unlinks a file, and raises on a directory or on a
    missing entry. *)
Definition os_remove (p : string) : M unit := λ w,
  match fs w !! p with
  | Some (File _) => (set_fs (delete p (fs w)) w, Ok tt)
  | Some (Dir _) => (w, Raise IsADirectoryError)
  | None => (w, Raise FileNotFoundError)
  end.

(** [shutil.rmtree(p, ignore_errors=True)]: removes the directory [p] with
    all it holds; on a file or a missing entry the error is swallowed and
    nothing changes. *)
Definition shutil_rmtree (p : string) : M unit := λ w,
  match fs w !! p with
  | Some (Dir _) => (set_fs (delete p (fs w)) w, Ok tt)
  | _ => (w, Ok tt)
  end.

(** ** Constants of the script *)

Definition YAML_FILE : string := "config/ICO-PAL.yaml".
Definition BASENAME : string := "SCES_507.60".
Definition LD_PATH : string := BASENAME +:+ ".ld".
Definition ELF_PATH : string := "build/" +:+ BASENAME.
Definition MAP_PATH : string := "build/" +:+ BASENAME +:+ ".map".
Definition PRE_ELF_PATH : string := "build/" +:+ BASENAME +:+ ".elf".

Definition COMMON_INCLUDES : string :=
  "-Iinclude -I include/sdk/common -I include/sdk/ee -I include/sdk -I include/gcc".

Definition COMPILER : string := "ee-gcc2.96".

(** The parsed arguments: [args.clean] and [args.cleansrc]. *)
Record Args : Type := {
  args_clean : bool;
  args_cleansrc : bool;
}.

Section Script.

(** [ROOT = Path(__file__).parent.parent], where the script is installed. *)
Variable ROOT : Path.

(** [split.main([Path(YAML_FILE)], modes="all", verbose=False)] followed by
    the read of [split.linker_writer.entries]: the external splitter, which
    may change the world and may fail in its own ways. *)
Variable split_main : M (list LinkerEntry).

Definition TOOLS_DIR : Path := joinpath ROOT "tools".
Definition GAME_CC_DIR : string := str TOOLS_DIR +:+ "/cc/" +:+ COMPILER +:+ "/bin".
Definition GAME_COMPILE_CMD : string :=
  GAME_CC_DIR +:+ "/ee-gcc -c " +:+ COMMON_INCLUDES +:+ " -O2 -g2 $regnames".

(** ** clean *)

Definition clean : M unit :=
  (b ← os_path_exists ".splache";
   if b : bool then os_remove ".splache" else mret tt) ;;
  (b ← os_path_exists LD_PATH;
   if b : bool then os_remove LD_PATH else mret tt) ;;
  shutil_rmtree "asm" ;;
  shutil_rmtree "assets" ;;
  shutil_rmtree "build".

(** ** build_stuff *)

(** The closure [build] of [build_stuff]; [object_paths] is a single path
    or a list of paths, and the call of [ninja.build] sits inside the loop
    over the object paths. *)
Definition build (object_paths : Path + list Path) (src_paths : list Path)
    (task : string) (variables : list (string * string))
    (implicit_outputs : list string) : M unit :=
  let object_paths :=
    match object_paths with
    | inl p => [p]
    | inr l => l
    end in
  let object_strs := map str object_paths in
  for_each object_paths (λ object_path,
    (if String.eqb (suffix object_path) ".o"
     then built_objects_add object_path
     else mret tt) ;;
    ninja_build object_strs task (map str src_paths) [] variables
      implicit_outputs).

(** The body of the loop over [linker_entries]; [continue] is the normal
    end of the body. *)
Definition entry_body (entry : LinkerEntry) : M unit :=
  let seg := segment entry in
  c ← getitem (type seg) 0;
  if String.eqb c "." then mret tt
  else
    match object_path entry with
    | None => mret tt
    | Some op =>
        let override := EmptyString in
        if isinstance seg CommonSegAsm || isinstance seg CommonSegData then
          build (inl op) (src_paths entry) "as" [("override", override)] []
        else if isinstance seg CommonSegDatabin
                || isinstance seg CommonSegRodatabin then
          build (inl op) (src_paths entry) "as" [("override", override)] []
        else if isinstance seg CommonSegC then
          build (inl op) (src_paths entry) "cc" [] []
        else
          print ("ERROR: Unsupported build segment type " +:+ type seg) ;;
          sys_exit 1
    end.

(** The emitter.  The link edge lists the set [built_objects]; Python
    fixes no order for that iteration, and [elements] stands for it: what
    is stated of the implicit inputs of the link edge is stated of their
    membership and multiplicity, never of their order. *)
Definition build_stuff (linker_entries : list LinkerEntry) : M unit :=
  set_built_objects ∅ ;;
  ninja_open (str (joinpath ROOT "build.ninja")) ;;
  let cross := "mips-linux-gnu-" in
  let ld_args :=
    "-EL -T config/undefined_syms_auto.txt -T config/undefined_funcs_auto.txt -Map $mapfile -T $in -o $out" in
  ninja_rule "as"
    ("cpp " +:+ COMMON_INCLUDES +:+ " $in | iconv -f=UTF-8 -t=EUC-JP $in | "
       +:+ cross +:+ "as -no-pad-sections -EL -march=5900 -mabi=eabi -Iinclude -o $out")
    "as $in" ;;
  ninja_rule "cc"
    (GAME_COMPILE_CMD +:+ " $in -o $out && " +:+ cross
       +:+ "strip $out -N dummy-symbol-name")
    "cc $in" ;;
  ninja_rule "ld" (cross +:+ "ld " +:+ ld_args) "link $out" ;;
  ninja_rule "sha1sum" "sha1sum -c $in && touch $out" "sha1sum $in" ;;
  ninja_rule "elf" (cross +:+ "objcopy $in $out -O binary") "elf $out" ;;
  for_each linker_entries entry_body ;;
  objs ← get_built_objects;
  ninja_build [PRE_ELF_PATH] "ld" [LD_PATH] (map str (elements objs))
    [("mapfile", MAP_PATH)] [] ;;
  ninja_build [ELF_PATH] "elf" [PRE_ELF_PATH] [] [] [] ;;
  ninja_build [ELF_PATH +:+ ".ok"] "sha1sum"
    ["checksum-" +:+ BASENAME +:+ ".sha1"] [ELF_PATH] [] [].

(** ** The command line *)

Definition main (args : Args) : M unit :=
  (if args_clean args then clean ;; sys_exit 0 else mret tt) ;;
  (if args_cleansrc args then shutil_rmtree "src" ;; sys_exit 0 else mret tt) ;;
  linker_entries ← split_main;
  build_stuff linker_entries.

End Script.

(** ** Vocabulary of the properties *)

(** The tag begins with the marker character ["."]. *)
Definition begins_with_marker (s : string) : bool :=
  match s with
  | EmptyString => false
  | String c _ => Ascii.eqb c "."
  end.

(** The four classes that are assembled. *)
Definition assemble_eligible (c : SegClass) : bool :=
  match c with
  | CommonSegAsm | CommonSegData | CommonSegDatabin | CommonSegRodatabin => true
  | _ => false
  end.

(** An entry outside the recognized set: its tag does not begin with the
    marker character, its object path is present and its class is none of
    the five the emitter knows. *)
Definition unsupported (e : LinkerEntry) : bool :=
  negb (begins_with_marker (type (segment e)))
  && bool_decide (is_Some (object_path e))
  && bool_decide (class (segment e) = CommonSegOther).

Definition nonempty_tag (e : LinkerEntry) : Prop :=
  type (segment e) ≠ EmptyString.

Definition is_dir (p : string) (w : World) : bool :=
  match fs w !! p with
  | Some (Dir _) => true
  | _ => false
  end.

(** The names [clean] works on. *)
Definition clean_targets : list string :=
  [".splache"; LD_PATH; "asm"; "assets"; "build"].

(** The diagnostic printed for an unsupported entry. *)
Definition diagnostic (e : LinkerEntry) : string :=
  "ERROR: Unsupported build segment type " +:+ type (segment e).

(** The edge a single call [build(op, srcs, task, variables)] writes. *)
Definition entry_edge (op : Path) (srcs : list Path) (task : string)
    (vars : list (string * string)) : Build :=
  {| outputs := [str op]; rule := task; inputs := map str srcs;
     implicit := []; variables := vars; implicit_outputs := [] |}.

(** The world after that call: the edge is appended and the object path is
    tracked when its suffix is [".o"]. *)
Definition emitted (b : Build) (op : Path) (w : World) : World :=
  {| fs := fs w;
     ninja := add_build b <$> ninja w;
     built_objects :=
       if String.eqb (suffix op) ".o" then {[op]} ∪ built_objects w
       else built_objects w;
     stdout := stdout w |}.

(** The world in which the loop over the entries starts: the set is empty,
    the writer is open and holds the five rules and no edge. *)
Definition loop_start (ROOT : Path) (w : World) : World :=
  match build_stuff ROOT [] w with
  | (w', _) =>
      {| fs := fs w';
         ninja := (λ wr, {| output := output wr; rules := rules wr;
                            builds := [] |}) <$> ninja w';
         built_objects := ∅;
         stdout := stdout w' |}
  end.

(** The three edges written after the loop, for the tracked set [objs]. *)
Definition trailing_edges (objs : gset Path) : list Build :=
  [ {| outputs := [PRE_ELF_PATH]; rule := "ld"; inputs := [LD_PATH];
       implicit := map str (elements objs);
       variables := [("mapfile", MAP_PATH)]; implicit_outputs := [] |};
    {| outputs := [ELF_PATH]; rule := "elf"; inputs := [PRE_ELF_PATH];
       implicit := []; variables := []; implicit_outputs := [] |};
    {| outputs := [ELF_PATH +:+ ".ok"]; rule := "sha1sum";
       inputs := ["checksum-" +:+ BASENAME +:+ ".sha1"];
       implicit := [ELF_PATH]; variables := []; implicit_outputs := [] |} ].

(** The world after the three trailing edges are written. *)
Definition finished (w : World) : World :=
  set_ninja
    ((λ wr, {| output := output wr; rules := rules wr;
               builds := builds wr ++ trailing_edges (built_objects w) |})
       <$> ninja w) w.

(** The invariant of the loop: the writer is open, every edge written so
    far is an assemble or a compile edge, and the tracked set holds exactly
    the outputs of those edges whose suffix is [".o"]. *)
Definition loop_inv (w : World) : Prop :=
  ∃ wr, ninja w = Some wr
    ∧ Forall (λ b, rule b = "as" ∨ rule b = "cc") (builds wr)
    ∧ ∀ p, p ∈ built_objects w ↔
           suffix p = ".o" ∧ ∃ b, b ∈ builds wr ∧ p ∈ outputs b.

(** The directory listing without the directory [p]; a file of that name
    stays. *)
Definition without_dir (p : string) (m : gmap string node) : gmap string node :=
  match m !! p with
  | Some (Dir _) => delete p m
  | _ => m
  end.

(** A computation that changes no entry of the working directory outside
    the names in [S], whatever its outcome. *)
Definition touches_only {A : Type} (S : list string) (m : M A) : Prop :=
  ∀ w w1 r, m w = (w1, r) → ∀ p, p ∉ S → fs w1 !! p = fs w !! p.

(** An entry the loop passes over: its tag begins with ["."] or its object
    path is absent. *)
Definition skipped (e : LinkerEntry) : bool :=
  begins_with_marker (type (segment e))
  || match object_path e with
     | None => true
     | Some _ => false
     end.

(** The edge the loop writes for an entry that is neither skipped nor
    unsupported: rule ["cc"] for the compiled-C class and rule ["as"], with
    the variable [override], for the assembled classes. *)
Definition edge_of (e : LinkerEntry) : Build :=
  {| outputs := map str (option_list (object_path e));
     rule := if bool_decide (class (segment e) = CommonSegC) then "cc" else "as";
     inputs := map str (src_paths e);
     implicit := [];
     variables :=
       if bool_decide (class (segment e) = CommonSegC) then []
       else [("override", EmptyString)];
     implicit_outputs := [] |}.

(** The entries of a list that get an edge. *)
Definition built_entries (l : list LinkerEntry) : list LinkerEntry :=
  List.filter (λ e, negb (skipped e)) l.

(** A computation that leaves the writer, the tracked set and the printed
    lines as they are, whatever its outcome. *)
Definition keeps_session {A : Type} (m : M A) : Prop :=
  ∀ w w1 r, m w = (w1, r) →
    ninja w1 = ninja w ∧ built_objects w1 = built_objects w
    ∧ stdout w1 = stdout w.

(** Two worlds with the same writer and the same tracked set. *)
Definition same_session (w w' : World) : Prop :=
  ninja w = ninja w' ∧ built_objects w = built_objects w'.

(** Two edges that differ at most in the order of their implicit inputs.
    The link edge lists a Python set, whose iteration order is not fixed by
    the script; the emitter's model lists it in the order of [elements]. *)
Definition same_edge (b b' : Build) : Prop :=
  outputs b = outputs b' ∧ rule b = rule b' ∧ inputs b = inputs b'
  ∧ implicit b ≡ₚ implicit b' ∧ variables b = variables b'
  ∧ implicit_outputs b = implicit_outputs b'.

(** Two states of the build-graph file with the same path, the same rules
    and, edge by edge, the same edges up to that order. *)
Definition same_graph (o o' : option Writer) : Prop :=
  match o, o' with
  | Some wr, Some wr' =>
      output wr = output wr' ∧ rules wr = rules wr'
      ∧ Forall2 same_edge (builds wr) (builds wr')
  | None, None => True
  | _, _ => False
  end.

(** ** Sample data *)

Definition mk_entry (t : string) (c : SegClass) (o : option Path)
    (s : list Path) : LinkerEntry :=
  {| segment := {| type := t; class := c |}; object_path := o;
     src_paths := s |}.

Definition empty_world : World :=
  {| fs := ∅; ninja := None; built_objects := ∅; stdout := [] |}.

Definition sample_root : Path := "/repo".

Definition asm_entry : LinkerEntry :=
  mk_entry "asm" CommonSegAsm (Some "build/asm/crt0.s.o") ["asm/crt0.s"].
Definition c_entry : LinkerEntry :=
  mk_entry "c" CommonSegC (Some "build/src/main.c.o") ["src/main.c"].
Definition c_entry_again : LinkerEntry :=
  mk_entry "c" CommonSegC (Some "build/src/main.c.o") ["src/main2.c"].
Definition databin_entry : LinkerEntry :=
  mk_entry "databin" CommonSegDatabin (Some "build/assets/font.bin")
    ["assets/font.bin"].
Definition dot_entry : LinkerEntry :=
  mk_entry ".data" CommonSegData (Some "build/src/main.c.o") ["src/main.c"].
Definition no_object_entry : LinkerEntry :=
  mk_entry "bin" CommonSegOther None [].
Definition bad_entry : LinkerEntry :=
  mk_entry "bin" CommonSegOther (Some "build/assets/x.bin.o") ["assets/x.bin"].
Definition empty_tag_entry : LinkerEntry :=
  mk_entry EmptyString CommonSegOther None [].

(** A writer that is already open, as it is inside the loop. *)
Definition open_world : World :=
  {| fs := ∅;
     ninja := Some {| output := "/repo/build.ninja"; rules := [];
                      builds := [] |};
     built_objects := ∅; stdout := [] |}.

(** A working directory with everything the clean-up commands look at. *)
Definition dirty_world : World :=
  {| fs := {[ ".splache" := File "cache";
              LD_PATH := File "SECTIONS";
              "asm" := Dir [("crt0.s", File "nop")];
              "assets" := Dir [];
              "build" := Dir [("SCES_507.60", File "elf")];
              "src" := Dir [("main.c", File "int main;")];
              "config" := Dir [] ]};
     ninja := None; built_objects := ∅; stdout := [] |}.

(** A working directory in which the name of the linker script is taken
    by a directory. *)
Definition blocked_world : World :=
  {| fs := {[ ".splache" := File "cache";
              LD_PATH := Dir [];
              "asm" := Dir [("crt0.s", File "nop")];
              "src" := Dir [] ]};
     ninja := None; built_objects := ∅; stdout := [] |}.

(** A splitter that returns a fixed list of entries. *)
Definition split_const (l : list LinkerEntry) : M (list LinkerEntry) :=
  λ w, (w, Ok l).

(** * Properties *)

(** ** The monad and the loop *)

Ltac unfold_monad :=
  unfold mbind, M_bind, mret, M_ret, raise, sys_exit in *.

Lemma bind_ok {A B : Type} (m : M A) (f : A → M B) (w w1 : World) (a : A) :
  m w = (w1, Ok a) → (m ≫= f) w = f a w1.
Proof. intros H. unfold_monad. by rewrite H. Qed.

Lemma bind_raise {A B : Type} (m : M A) (f : A → M B) (w w1 : World) (e : exn) :
  m w = (w1, Raise e) → (m ≫= f) w = (w1, Raise e).
Proof. intros H. unfold_monad. by rewrite H. Qed.

Lemma for_each_cons {A : Type} (x : A) (l : list A) (body : A → M unit) (w : World) :
  for_each (x :: l) body w =
  match body x w with
  | (w1, Ok _) => for_each l body w1
  | (w1, Raise e) => (w1, Raise e)
  end.
Proof. reflexivity. Qed.

(** A loop that runs through a prefix normally continues with the rest. *)
Lemma for_each_app {A : Type} (pre post : list A) (body : A → M unit)
    (w w1 : World) :
  for_each pre body w = (w1, Ok tt) →
  for_each (pre ++ post) body w = for_each post body w1.
Proof.
  revert w. induction pre as [|x pre IH]; intros w H.
  - cbn in H. unfold_monad. by inversion H.
  - rewrite <- app_comm_cons, for_each_cons. rewrite for_each_cons in H.
    destruct (body x w) as [w2 [[]|e]]; [by apply IH | discriminate].
Qed.

(** A property kept by the body, whatever its outcome, is kept by the loop. *)
Lemma for_each_preserves {A : Type} (I : World → Prop) (body : A → M unit) :
  (∀ x w w1 r, I w → body x w = (w1, r) → I w1) →
  ∀ l w w1 r, I w → for_each l body w = (w1, r) → I w1.
Proof.
  intros Hbody l. induction l as [|x l IH]; intros w w1 r HI H.
  - cbn in H. unfold_monad. by inversion H; subst.
  - rewrite for_each_cons in H.
    destruct (body x w) as [w2 [[]|e]] eqn:Hx.
    + eapply IH; [|exact H]. eapply Hbody; eauto.
    + inversion H; subst. eapply Hbody; eauto.
Qed.

(** ** One entry *)

Lemma build_single (op : Path) (srcs : list Path) (task : string)
    (vars : list (string * string)) (w : World) :
  build (inl op) srcs task vars [] w
  = (emitted (entry_edge op srcs task vars) op w, Ok tt).
Proof.
  unfold build, emitted, entry_edge. cbn. unfold_monad.
  destruct (String.eqb (suffix op) ".o"); reflexivity.
Qed.

(** What the loop body does, case by case. *)
Lemma entry_body_eq (e : LinkerEntry) (w : World) :
  entry_body e w =
  match type (segment e) with
  | EmptyString => (w, Raise IndexError)
  | String c _ =>
      if Ascii.eqb c "." then (w, Ok tt)
      else
        match object_path e with
        | None => (w, Ok tt)
        | Some op =>
            match class (segment e) with
            | CommonSegC =>
                (emitted (entry_edge op (src_paths e) "cc" []) op w, Ok tt)
            | CommonSegOther =>
                ({| fs := fs w; ninja := ninja w;
                    built_objects := built_objects w;
                    stdout := stdout w ++ [diagnostic e] |},
                 Raise (SystemExit 1))
            | _ =>
                (emitted
                   (entry_edge op (src_paths e) "as"
                      [("override", EmptyString)]) op w,
                 Ok tt)
            end
        end
  end.
Proof.
  destruct e as [[t c] o s]. unfold entry_body. cbn.
  destruct t as [|a t]; [reflexivity|].
  unfold mbind at 1, M_bind at 1. cbn.
  destruct (Ascii.eqb a ".") eqn:Ha.
  - apply Ascii.eqb_eq in Ha as ->. reflexivity.
  - destruct o as [op|]; [|reflexivity].
    destruct c; cbn; unfold emitted, entry_edge, print; unfold_monad; cbn;
      destruct (String.eqb (suffix op) ".o"); reflexivity.
Qed.

(** ** The whole emitter *)

(** [build_stuff] is the loop over the entries, started in [loop_start] and
    followed, when it ends normally, by the three trailing edges. *)
Lemma build_stuff_eq (ROOT : Path) (l : list LinkerEntry) (w : World) :
  build_stuff ROOT l w =
  match for_each l entry_body (loop_start ROOT w) with
  | (w1, Ok _) => (finished w1, Ok tt)
  | (w1, Raise e) => (w1, Raise e)
  end.
Proof.
  unfold build_stuff. unfold_monad. cbn.
  match goal with
  | |- context [for_each l entry_body ?x] => change x with (loop_start ROOT w)
  end.
  destruct (for_each l entry_body (loop_start ROOT w)) as [w1 [[]|e]];
    [|reflexivity].
  unfold finished, set_ninja, trailing_edges, ninja_build, add_build. cbn.
  destruct (ninja w1) as [wr|]; cbn; [|reflexivity].
  by rewrite <- !app_assoc.
Qed.

Lemma loop_start_ninja (ROOT : Path) (w : World) :
  ∃ wr, ninja (loop_start ROOT w) = Some wr
        ∧ output wr = joinpath ROOT "build.ninja"
        ∧ map rule_name (rules wr) = ["as"; "cc"; "ld"; "sha1sum"; "elf"]
        ∧ builds wr = [].
Proof. eexists. unfold loop_start. cbn. repeat split; reflexivity. Qed.

Lemma loop_start_stdout (ROOT : Path) (w : World) :
  stdout (loop_start ROOT w) = stdout w.
Proof. reflexivity. Qed.

Lemma loop_start_inv (ROOT : Path) (w : World) : loop_inv (loop_start ROOT w).
Proof.
  eexists. unfold loop_start. cbn. split; [reflexivity|]. split; [constructor|].
  intros p. split.
  - intros H. by apply not_elem_of_empty in H.
  - intros [_ (b & Hb & _)]. by apply not_elem_of_nil in Hb.
Qed.

Lemma emitted_inv (op : Path) (srcs : list Path) (task : string)
    (vars : list (string * string)) (w : World) :
  task = "as" ∨ task = "cc" →
  loop_inv w → loop_inv (emitted (entry_edge op srcs task vars) op w).
Proof.
  intros Htask (wr & Hwr & Hrules & Htracked).
  exists (add_build (entry_edge op srcs task vars) wr).
  unfold emitted. cbn. rewrite Hwr. split; [reflexivity|]. split.
  - apply Forall_app. split; [exact Hrules|]. by constructor.
  - intros p. setoid_rewrite elem_of_app. setoid_rewrite list_elem_of_singleton.
    destruct (String.eqb (suffix op) ".o") eqn:Hs.
    + apply String.eqb_eq in Hs. rewrite elem_of_union, elem_of_singleton, Htracked.
      split.
      * intros [->|[Hp (b & Hb & Hpb)]]; [|by eauto].
        split; [exact Hs|]. eexists. split; [by right|]. cbn. by left.
      * intros [Hp (b & [Hb| ->] & Hpb)]; [by eauto|].
        cbn in Hpb. apply list_elem_of_singleton in Hpb. by left.
    + apply String.eqb_neq in Hs. rewrite Htracked. split.
      * intros [Hp (b & Hb & Hpb)]. by eauto.
      * intros [Hp (b & [Hb| ->] & Hpb)]; [by eauto|].
        cbn in Hpb. apply list_elem_of_singleton in Hpb. unfold str in Hpb.
        by subst.
Qed.

Lemma entry_body_inv (e : LinkerEntry) (w w1 : World) (r : result unit) :
  loop_inv w → entry_body e w = (w1, r) → loop_inv w1.
Proof.
  intros HI. rewrite entry_body_eq.
  destruct (type (segment e)) as [|c t]; [by intros [= <- _]|].
  destruct (Ascii.eqb c "."); [by intros [= <- _]|].
  destruct (object_path e) as [op|]; [|by intros [= <- _]].
  destruct (class (segment e)); intros [= <- _];
    try (apply emitted_inv; [by auto | exact HI]).
  exact HI.
Qed.

Lemma loop_keeps_inv (l : list LinkerEntry) (w w1 : World) (r : result unit) :
  loop_inv w → for_each l entry_body w = (w1, r) → loop_inv w1.
Proof. apply for_each_preserves. intros x. apply entry_body_inv. Qed.

Lemma begins_with_marker_false_cons (s : string) :
  s ≠ EmptyString → begins_with_marker s = false →
  ∃ c rest, s = String c rest ∧ Ascii.eqb c "." = false.
Proof. destruct s as [|c rest]; [done|]. cbn. eauto. Qed.

(** An entry with a non-empty tag that is not unsupported ends the body
    normally. *)
Lemma entry_body_continues (e : LinkerEntry) (w : World) :
  nonempty_tag e → unsupported e = false →
  ∃ w1, entry_body e w = (w1, Ok tt).
Proof.
  unfold nonempty_tag, unsupported. intros Hne Hu. rewrite entry_body_eq.
  destruct (type (segment e)) as [|c t]; [done|]. cbn in Hu.
  destruct (Ascii.eqb c "."); [by eauto|].
  destruct (object_path e) as [op|]; [|by eauto].
  destruct (class (segment e)); by eauto.
Qed.

(** An unsupported entry with a non-empty tag prints the diagnostic and
    leaves through [sys.exit(1)]. *)
Lemma entry_body_unsupported (e : LinkerEntry) (w : World) :
  nonempty_tag e → unsupported e = true →
  entry_body e w =
  ({| fs := fs w; ninja := ninja w; built_objects := built_objects w;
      stdout := stdout w ++ [diagnostic e] |}, Raise (SystemExit 1)).
Proof.
  unfold nonempty_tag, unsupported. intros Hne Hu. rewrite entry_body_eq.
  apply andb_prop in Hu as [Hu Hc]. apply andb_prop in Hu as [Hm Ho].
  apply bool_decide_eq_true_1 in Hc. apply bool_decide_eq_true_1 in Ho.
  apply negb_true_iff in Hm.
  destruct (type (segment e)) as [|c t]; [done|]. cbn in Hm. rewrite Hm.
  destruct Ho as [op ->]. by rewrite Hc.
Qed.

(** A normal end of the body prints nothing and leaves the directory alone. *)
Lemma entry_body_ok_quiet (e : LinkerEntry) (w w1 : World) :
  entry_body e w = (w1, Ok tt) →
  nonempty_tag e ∧ stdout w1 = stdout w ∧ fs w1 = fs w.
Proof.
  unfold nonempty_tag. rewrite entry_body_eq.
  destruct (type (segment e)) as [|c t]; [done|].
  destruct (Ascii.eqb c "."); [by intros [= <-]|].
  destruct (object_path e) as [op|]; [|by intros [= <-]].
  destruct (class (segment e)); by intros [= <-].
Qed.

Lemma loop_ok_quiet (l : list LinkerEntry) (w w1 : World) :
  for_each l entry_body w = (w1, Ok tt) →
  Forall nonempty_tag l ∧ stdout w1 = stdout w ∧ fs w1 = fs w.
Proof.
  revert w. induction l as [|e l IH]; intros w H.
  - cbn in H. unfold_monad. by inversion H.
  - rewrite for_each_cons in H.
    destruct (entry_body e w) as [w2 [[]|x]] eqn:He; [|done].
    apply entry_body_ok_quiet in He as (Hne & Hs & Hf).
    apply IH in H as (Hl & Hs' & Hf').
    split; [by constructor|]. split; congruence.
Qed.

(** The loop stops at the first unsupported entry. *)
Lemma loop_stops_at_unsupported (l : list LinkerEntry) (w : World) :
  Forall nonempty_tag l → Exists (λ e, unsupported e = true) l →
  ∃ pre e post w1,
    l = pre ++ e :: post
    ∧ Forall (λ x, unsupported x = false) pre
    ∧ unsupported e = true
    ∧ for_each pre entry_body w = (w1, Ok tt)
    ∧ for_each l entry_body w =
      ({| fs := fs w1; ninja := ninja w1; built_objects := built_objects w1;
          stdout := stdout w1 ++ [diagnostic e] |}, Raise (SystemExit 1)).
Proof.
  intros Hne. revert w. induction Hne as [|e l He Hl IH]; intros w Hex.
  - by apply Exists_nil in Hex.
  - destruct (unsupported e) eqn:Hu.
    + exists [], e, l, w.
      split; [reflexivity|]. split; [constructor|]. split; [exact Hu|].
      split; [reflexivity|].
      rewrite for_each_cons, (entry_body_unsupported e w He Hu). reflexivity.
    + apply Exists_cons in Hex as [Hex|Hex]; [congruence|].
      destruct (entry_body_continues e w He Hu) as [w2 Hw2].
      destruct (IH w2 Hex) as (pre & x & post & w1 & -> & Hpre & Hx & Hrun & Hall).
      exists (e :: pre), x, post, w1.
      split; [reflexivity|]. split; [by constructor|]. split; [exact Hx|].
      split.
      * by rewrite for_each_cons, Hw2.
      * cbn [app]. by rewrite for_each_cons, Hw2.
Qed.

(** The writer keeps its path and its rules through the loop. *)
Lemma loop_keeps_rules (l : list LinkerEntry) (w w1 : World) (r : result unit)
    (wr : Writer) :
  ninja w = Some wr → for_each l entry_body w = (w1, r) →
  ∃ wr1, ninja w1 = Some wr1 ∧ output wr1 = output wr ∧ rules wr1 = rules wr.
Proof.
  intros Hwr.
  apply (for_each_preserves
           (λ v, ∃ wr1, ninja v = Some wr1 ∧ output wr1 = output wr
                        ∧ rules wr1 = rules wr)); [|by eauto].
  clear. intros e v v1 r (wr1 & Hv & Ho & Hr). rewrite entry_body_eq.
  destruct (type (segment e)) as [|c t]; [intros [= <- _]; by eauto|].
  destruct (Ascii.eqb c "."); [intros [= <- _]; by eauto|].
  destruct (object_path e) as [op|]; [|intros [= <- _]; by eauto].
  destruct (class (segment e)); intros [= <- _]; cbn; rewrite Hv; cbn; by eauto.
Qed.

(** ** The entries, one by one *)

(** C3: an entry of one of the four assembled classes whose tag is a name
    that does not begin with ["."] and whose object path is present gets
    exactly one edge, appended to the edges written so far: rule ["as"],
    inputs the entry's source paths, output its object path. *)
Theorem assemble_entry_one_edge (e : LinkerEntry) (op : Path) (w : World)
    (wr : Writer) :
  assemble_eligible (class (segment e)) = true →
  nonempty_tag e →
  begins_with_marker (type (segment e)) = false →
  object_path e = Some op →
  ninja w = Some wr →
  ∃ w1 wr1,
    entry_body e w = (w1, Ok tt)
    ∧ ninja w1 = Some wr1
    ∧ rules wr1 = rules wr
    ∧ builds wr1 =
      builds wr ++
      [ {| outputs := [str op]; rule := "as";
           inputs := map str (src_paths e); implicit := [];
           variables := [("override", EmptyString)]; implicit_outputs := [] |} ].
Proof.
  intros Hc Hne Hm Hop Hwr.
  destruct (begins_with_marker_false_cons _ Hne Hm) as (c & t & Ht & Hdot).
  rewrite entry_body_eq, Ht, Hdot, Hop.
  destruct (class (segment e)); try discriminate Hc;
    (eexists _, _; split; [reflexivity|]; cbn; rewrite Hwr; cbn;
     split; [reflexivity|]; split; reflexivity).
Qed.

Lemma assemble_entry_one_edge_witness :
  ∃ w1 wr1,
    entry_body databin_entry open_world = (w1, Ok tt)
    ∧ ninja w1 = Some wr1
    ∧ rules wr1 = []
    ∧ builds wr1 =
      [] ++
      [ {| outputs := ["build/assets/font.bin"]; rule := "as";
           inputs := ["assets/font.bin"]; implicit := [];
           variables := [("override", EmptyString)]; implicit_outputs := [] |} ].
Proof.
  apply (assemble_entry_one_edge databin_entry "build/assets/font.bin"
           open_world
           {| output := "/repo/build.ninja"; rules := []; builds := [] |});
    [reflexivity | discriminate | reflexivity | reflexivity | reflexivity].
Defined.

(** C4: an entry of the compiled-C class whose tag is a name that does not
    begin with ["."] and whose object path is present gets exactly one edge,
    with rule ["cc"]. *)
Theorem c_entry_one_edge (e : LinkerEntry) (op : Path) (w : World)
    (wr : Writer) :
  class (segment e) = CommonSegC →
  nonempty_tag e →
  begins_with_marker (type (segment e)) = false →
  object_path e = Some op →
  ninja w = Some wr →
  ∃ w1 wr1,
    entry_body e w = (w1, Ok tt)
    ∧ ninja w1 = Some wr1
    ∧ rules wr1 = rules wr
    ∧ builds wr1 =
      builds wr ++
      [ {| outputs := [str op]; rule := "cc";
           inputs := map str (src_paths e); implicit := [];
           variables := []; implicit_outputs := [] |} ].
Proof.
  intros Hc Hne Hm Hop Hwr.
  destruct (begins_with_marker_false_cons _ Hne Hm) as (c & t & Ht & Hdot).
  rewrite entry_body_eq, Ht, Hdot, Hop, Hc.
  eexists _, _. split; [reflexivity|]. cbn. rewrite Hwr. cbn.
  split; [reflexivity|]. split; reflexivity.
Qed.

Lemma c_entry_one_edge_witness :
  ∃ w1 wr1,
    entry_body c_entry open_world = (w1, Ok tt)
    ∧ ninja w1 = Some wr1
    ∧ rules wr1 = []
    ∧ builds wr1 =
      [] ++
      [ {| outputs := ["build/src/main.c.o"]; rule := "cc";
           inputs := ["src/main.c"]; implicit := [];
           variables := []; implicit_outputs := [] |} ].
Proof.
  apply (c_entry_one_edge c_entry "build/src/main.c.o" open_world
           {| output := "/repo/build.ninja"; rules := []; builds := [] |});
    [reflexivity | discriminate | reflexivity | reflexivity | reflexivity].
Defined.

(** C5: an entry whose tag begins with ["."], or whose object path is
    absent, produces no build edge: whatever the outcome of the loop body,
    the writer and the tracked set are as before. *)
Theorem skipped_entry_no_edge (e : LinkerEntry) (w : World) :
  begins_with_marker (type (segment e)) = true ∨ object_path e = None →
  ninja (entry_body e w).1 = ninja w
  ∧ built_objects (entry_body e w).1 = built_objects w.
Proof.
  intros H. rewrite entry_body_eq.
  destruct (type (segment e)) as [|c t]; [done|].
  destruct H as [H|H]; cbn in H.
  - by rewrite H.
  - rewrite H. by destruct (Ascii.eqb c ".").
Qed.

Lemma skipped_entry_no_edge_witness :
  (ninja (entry_body dot_entry open_world).1 = ninja open_world
   ∧ built_objects (entry_body dot_entry open_world).1
     = built_objects open_world)
  ∧ (ninja (entry_body no_object_entry open_world).1 = ninja open_world
     ∧ built_objects (entry_body no_object_entry open_world).1
       = built_objects open_world).
Proof.
  split.
  - apply (skipped_entry_no_edge dot_entry open_world). left. reflexivity.
  - apply (skipped_entry_no_edge no_object_entry open_world). right.
    reflexivity.
Defined.

(** C8, as the code has it: an entry with a non-empty tag whose object path
    is absent is skipped, with no error and no exit and nothing changed,
    whatever its class. *)
Theorem absent_object_path_skipped (e : LinkerEntry) (w : World) :
  nonempty_tag e → object_path e = None →
  entry_body e w = (w, Ok tt).
Proof.
  unfold nonempty_tag. intros Hne Ho. rewrite entry_body_eq, Ho.
  destruct (type (segment e)) as [|c t]; [done|].
  by destruct (Ascii.eqb c ".").
Qed.

Lemma absent_object_path_skipped_witness :
  entry_body no_object_entry open_world = (open_world, Ok tt).
Proof.
  apply (absent_object_path_skipped no_object_entry open_world);
    [discriminate | reflexivity].
Defined.

(** C8 as stated fails: with an absent object path and an empty tag the
    loop body raises [IndexError], and the process ends with status 1. *)
Lemma absent_object_path_empty_tag_raises :
  object_path empty_tag_entry = None
  ∧ entry_body empty_tag_entry open_world = (open_world, Raise IndexError)
  ∧ entry_body empty_tag_entry open_world ≠ (open_world, Ok tt)
  ∧ exit_status (entry_body empty_tag_entry open_world).2 = 1.
Proof.
  rewrite entry_body_eq. cbn. repeat split; discriminate.
Qed.

(** C10: on an entry whose tag is the empty string the marker check
    [seg.type[0]] raises [IndexError]: the entry is not skipped, no
    diagnostic is printed and nothing is written; a run of the emitter
    that reaches such an entry ends with that error; and the emitter
    returns normally only if every entry's tag is non-empty. *)
Theorem empty_tag_raises_index_error :
  (∀ (e : LinkerEntry) (w : World),
     type (segment e) = EmptyString → entry_body e w = (w, Raise IndexError))
  ∧ (∀ (ROOT : Path) (pre post : list LinkerEntry) (e : LinkerEntry)
       (w w1 : World),
       type (segment e) = EmptyString →
       for_each pre entry_body (loop_start ROOT w) = (w1, Ok tt) →
       build_stuff ROOT (pre ++ e :: post) w = (w1, Raise IndexError)
       ∧ stdout w1 = stdout w)
  ∧ (∀ (ROOT : Path) (l : list LinkerEntry) (w w1 : World),
       build_stuff ROOT l w = (w1, Ok tt) → Forall nonempty_tag l).
Proof.
  split; [|split].
  - intros e w Ht. by rewrite entry_body_eq, Ht.
  - intros ROOT pre post e w w1 Ht Hpre.
    rewrite build_stuff_eq, (for_each_app _ _ _ _ _ Hpre), for_each_cons.
    rewrite entry_body_eq, Ht. split; [reflexivity|].
    apply loop_ok_quiet in Hpre as (_ & Hs & _).
    by rewrite Hs, loop_start_stdout.
  - intros ROOT l w w1. rewrite build_stuff_eq.
    destruct (for_each l entry_body (loop_start ROOT w)) as [w2 [[]|x]] eqn:Hl;
      [|done].
    intros _. by apply loop_ok_quiet in Hl as (Hne & _).
Qed.

Lemma empty_tag_raises_index_error_witness :
  entry_body empty_tag_entry open_world = (open_world, Raise IndexError)
  ∧ (build_stuff sample_root ([asm_entry] ++ empty_tag_entry :: [c_entry])
       empty_world
     = ((for_each [asm_entry] entry_body (loop_start sample_root empty_world)).1,
        Raise IndexError)
     ∧ stdout
         (for_each [asm_entry] entry_body (loop_start sample_root empty_world)).1
       = stdout empty_world)
  ∧ Forall nonempty_tag [asm_entry; c_entry].
Proof.
  split; [|split].
  - apply (proj1 empty_tag_raises_index_error empty_tag_entry open_world).
    reflexivity.
  - apply (proj1 (proj2 empty_tag_raises_index_error) sample_root [asm_entry]
             [c_entry] empty_tag_entry empty_world); [reflexivity|].
    vm_compute. reflexivity.
  - apply (proj2 (proj2 empty_tag_raises_index_error) sample_root
             [asm_entry; c_entry] empty_world
             (build_stuff sample_root [asm_entry; c_entry] empty_world).1).
    vm_compute. reflexivity.
Defined.

(** ** The whole run *)

(** C1 as stated fails twice.  On a list with one unsupported entry the
    build-graph file, absent before the run, has been opened and holds the
    five rules when the process exits.  On a list whose unsupported entry
    comes after an entry with an empty tag, the run ends with [IndexError]
    and no diagnostic is printed. *)
Lemma unsupported_run_writes_file :
  (Exists (λ e, unsupported e = true) [bad_entry]
   ∧ ninja empty_world = None
   ∧ (build_stuff sample_root [bad_entry] empty_world).2
     = Raise (SystemExit 1)
   ∧ ninja (build_stuff sample_root [bad_entry] empty_world).1 ≠ None
   ∧ (rules <$> ninja (build_stuff sample_root [bad_entry] empty_world).1)
     ≠ Some [])
  ∧ (Exists (λ e, unsupported e = true) [empty_tag_entry; bad_entry]
     ∧ (build_stuff sample_root [empty_tag_entry; bad_entry] empty_world).2
       = Raise IndexError
     ∧ stdout (build_stuff sample_root [empty_tag_entry; bad_entry]
                 empty_world).1 = []).
Proof.
  split.
  - split; [apply Exists_cons_hd; reflexivity|].
    split; [reflexivity|]. split; [vm_compute; reflexivity|].
    split; vm_compute; discriminate.
  - split; [apply Exists_cons_tl, Exists_cons_hd; reflexivity|].
    split; vm_compute; reflexivity.
Qed.

Lemma map_str (l : list Path) : map str l = l.
Proof. induction l as [|p l IH]; cbn; [done|]. by rewrite IH. Qed.

(** What a normal run leaves in the writer: the edges of the loop, then the
    three trailing edges for the set tracked by the loop. *)
Lemma build_stuff_ok (ROOT : Path) (l : list LinkerEntry) (w w1 : World) :
  build_stuff ROOT l w = (w1, Ok tt) →
  ∃ w0 wr0,
    for_each l entry_body (loop_start ROOT w) = (w0, Ok tt)
    ∧ ninja w0 = Some wr0
    ∧ Forall (λ b, rule b = "as" ∨ rule b = "cc") (builds wr0)
    ∧ (∀ p, p ∈ built_objects w0 ↔
            suffix p = ".o" ∧ ∃ b, b ∈ builds wr0 ∧ p ∈ outputs b)
    ∧ ninja w1 =
      Some {| output := output wr0; rules := rules wr0;
              builds := builds wr0 ++ trailing_edges (built_objects w0) |}.
Proof.
  rewrite build_stuff_eq.
  destruct (for_each l entry_body (loop_start ROOT w)) as [w0 [[]|x]] eqn:Hl;
    [|done].
  intros [= <-].
  destruct (loop_keeps_inv _ _ _ _ (loop_start_inv ROOT w) Hl)
    as (wr0 & Hwr0 & Hedges & Htracked).
  exists w0, wr0. repeat (split; [done|]).
  unfold finished. cbn. by rewrite Hwr0.
Qed.

(** C2: after a run that processes every entry without error, the implicit
    inputs of the trailing link edge have no duplicates and are exactly the
    paths with suffix [".o"] among the outputs of the edges written for the
    entries; a path with another suffix is not among them. *)
Theorem link_edge_implicit_inputs (ROOT : Path) (l : list LinkerEntry)
    (w w1 : World) :
  build_stuff ROOT l w = (w1, Ok tt) →
  ∃ wr es ld e2 e3,
    ninja w1 = Some wr
    ∧ builds wr = es ++ [ld; e2; e3]
    ∧ Forall (λ b, rule b = "as" ∨ rule b = "cc") es
    ∧ rule ld = "ld"
    ∧ NoDup (implicit ld)
    ∧ ∀ p, p ∈ implicit ld ↔
           suffix p = ".o" ∧ ∃ b, b ∈ es ∧ p ∈ outputs b.
Proof.
  intros H.
  destruct (build_stuff_ok _ _ _ _ H) as (w0 & wr0 & _ & _ & Hedges & Htr & Hw1).
  eexists _, (builds wr0), _, _, _. split; [exact Hw1|].
  split; [reflexivity|]. split; [exact Hedges|]. split; [reflexivity|].
  cbn. rewrite map_str. split; [apply NoDup_elements|].
  intros p. by rewrite elem_of_elements.
Qed.

Lemma link_edge_implicit_inputs_witness :
  ∃ wr es ld e2 e3,
    ninja (build_stuff sample_root
             [asm_entry; c_entry; c_entry_again; databin_entry; dot_entry;
              no_object_entry] empty_world).1 = Some wr
    ∧ builds wr = es ++ [ld; e2; e3]
    ∧ Forall (λ b, rule b = "as" ∨ rule b = "cc") es
    ∧ rule ld = "ld"
    ∧ NoDup (implicit ld)
    ∧ ∀ p, p ∈ implicit ld ↔
           suffix p = ".o" ∧ ∃ b, b ∈ es ∧ p ∈ outputs b.
Proof.
  apply (link_edge_implicit_inputs sample_root
           [asm_entry; c_entry; c_entry_again; databin_entry; dot_entry;
            no_object_entry] empty_world).
  vm_compute. reflexivity.
Defined.

(** C6: after a run that processes every entry without error, the writer
    holds the assemble and compile edges of the entries followed by exactly
    three edges, in this order: the link edge (input the linker script,
    output the pre-final image, the map-file path as the variable
    [mapfile]), the edge of rule ["elf"] from the pre-final image to the
    final image, and the checksum edge (input the digest file, implicit
    dependency the final image, output the sentinel file). *)
Theorem three_trailing_edges (ROOT : Path) (l : list LinkerEntry)
    (w w1 : World) :
  build_stuff ROOT l w = (w1, Ok tt) →
  ∃ wr es ld,
    ninja w1 = Some wr
    ∧ Forall (λ b, rule b = "as" ∨ rule b = "cc") es
    ∧ builds wr =
      es ++
      [ ld;
        {| outputs := [ELF_PATH]; rule := "elf"; inputs := [PRE_ELF_PATH];
           implicit := []; variables := []; implicit_outputs := [] |};
        {| outputs := [ELF_PATH +:+ ".ok"]; rule := "sha1sum";
           inputs := ["checksum-" +:+ BASENAME +:+ ".sha1"];
           implicit := [ELF_PATH]; variables := []; implicit_outputs := [] |} ]
    ∧ outputs ld = [PRE_ELF_PATH]
    ∧ rule ld = "ld"
    ∧ inputs ld = [LD_PATH]
    ∧ variables ld = [("mapfile", MAP_PATH)]
    ∧ implicit_outputs ld = [].
Proof.
  intros H.
  destruct (build_stuff_ok _ _ _ _ H) as (w0 & wr0 & _ & _ & Hedges & _ & Hw1).
  eexists _, (builds wr0), _. split; [exact Hw1|]. split; [exact Hedges|].
  split; [reflexivity|]. repeat split.
Qed.

Lemma three_trailing_edges_witness :
  ∃ wr es ld,
    ninja (build_stuff sample_root [asm_entry; dot_entry; c_entry]
             empty_world).1 = Some wr
    ∧ Forall (λ b, rule b = "as" ∨ rule b = "cc") es
    ∧ builds wr =
      es ++
      [ ld;
        {| outputs := [ELF_PATH]; rule := "elf"; inputs := [PRE_ELF_PATH];
           implicit := []; variables := []; implicit_outputs := [] |};
        {| outputs := [ELF_PATH +:+ ".ok"]; rule := "sha1sum";
           inputs := ["checksum-" +:+ BASENAME +:+ ".sha1"];
           implicit := [ELF_PATH]; variables := []; implicit_outputs := [] |} ]
    ∧ outputs ld = [PRE_ELF_PATH]
    ∧ rule ld = "ld"
    ∧ inputs ld = [LD_PATH]
    ∧ variables ld = [("mapfile", MAP_PATH)]
    ∧ implicit_outputs ld = [].
Proof.
  apply (three_trailing_edges sample_root [asm_entry; dot_entry; c_entry]
           empty_world).
  vm_compute. reflexivity.
Defined.

(** ** The clean-up commands *)

Lemma touches_only_bind {A B : Type} (S : list string) (m : M A) (f : A → M B) :
  touches_only S m → (∀ a, touches_only S (f a)) → touches_only S (m ≫= f).
Proof.
  intros Hm Hf w w1 r H p Hp. unfold_monad.
  destruct (m w) as [w2 [a|e]] eqn:Hmw.
  - rewrite (Hf a _ _ _ H p Hp). by apply (Hm _ _ _ Hmw).
  - inversion H; subst. by apply (Hm _ _ _ Hmw).
Qed.

Lemma touches_only_ret {A : Type} (S : list string) (a : A) :
  touches_only S (mret a : M A).
Proof. intros w w1 r H p _. unfold_monad. by inversion H. Qed.

Lemma touches_only_exists (S : list string) (p : string) :
  touches_only S (os_path_exists p).
Proof. intros w w1 r H q _. unfold os_path_exists in H. by inversion H. Qed.

Lemma touches_only_remove (S : list string) (p : string) :
  p ∈ S → touches_only S (os_remove p).
Proof.
  intros Hp w w1 r H q Hq. unfold os_remove in H.
  destruct (fs w !! p) as [[d|c]|]; inversion H; subst; try done.
  cbn. apply lookup_delete_ne. by intros ->.
Qed.

Lemma touches_only_rmtree (S : list string) (p : string) :
  p ∈ S → touches_only S (shutil_rmtree p).
Proof.
  intros Hp w w1 r H q Hq. unfold shutil_rmtree in H.
  destruct (fs w !! p) as [[d|c]|]; inversion H; subst; try done.
  cbn. apply lookup_delete_ne. by intros ->.
Qed.

Lemma clean_touches_only : touches_only clean_targets clean.
Proof.
  unfold clean, clean_targets.
  repeat (apply touches_only_bind; [|intros _]);
    try (apply touches_only_rmtree; set_solver).
  - apply touches_only_bind; [apply touches_only_exists|].
    intros []; [apply touches_only_remove; set_solver|apply touches_only_ret].
  - apply touches_only_bind; [apply touches_only_exists|].
    intros []; [apply touches_only_remove; set_solver|apply touches_only_ret].
Qed.

(** [if os.path.exists(p): os.remove(p)] on a name that is not a directory. *)
Lemma remove_if_exists (p : string) (w : World) :
  is_dir p w = false →
  ∃ w1, (b ← os_path_exists p;
         if b : bool then os_remove p else mret tt) w = (w1, Ok tt)
        ∧ fs w1 = delete p (fs w).
Proof.
  unfold is_dir, os_path_exists, os_remove. unfold_monad. intros Hd.
  destruct (fs w !! p) as [[d|c]|] eqn:Hp; [| done |].
  - rewrite bool_decide_eq_true_2 by eauto. rewrite Hp. by eauto.
  - rewrite bool_decide_eq_false_2 by (by intros [? ?]).
    eexists. split; [reflexivity|]. by rewrite delete_id.
Qed.

(** [if os.path.exists(p): os.remove(p)] raises only on a directory. *)
Lemma remove_if_exists_raise (p : string) (w w1 : World) (e : exn) :
  (b ← os_path_exists p;
   if b : bool then os_remove p else mret tt) w = (w1, Raise e) →
  e = IsADirectoryError.
Proof.
  unfold os_path_exists, os_remove. unfold_monad.
  destruct (fs w !! p) as [[d|c]|] eqn:Hp.
  - rewrite bool_decide_eq_true_2 by eauto. by rewrite Hp.
  - rewrite bool_decide_eq_true_2 by eauto. rewrite Hp. by intros [= _ <-].
  - by rewrite bool_decide_eq_false_2 by (by intros [? ?]).
Qed.

Lemma rmtree_eq (p : string) (w : World) :
  ∃ w1, shutil_rmtree p w = (w1, Ok tt) ∧ fs w1 = without_dir p (fs w).
Proof.
  unfold shutil_rmtree, without_dir.
  destruct (fs w !! p) as [[d|c]|]; by eauto.
Qed.

Lemma lookup_without_dir_ne (p q : string) (m : gmap string node) :
  p ≠ q → without_dir p m !! q = m !! q.
Proof.
  intros Hne. unfold without_dir.
  destruct (m !! p) as [[d|c]|]; [done| |done]. by apply lookup_delete_ne.
Qed.

Lemma lookup_without_dir_eq (p : string) (m : gmap string node) :
  without_dir p m !! p =
  match m !! p with
  | Some (Dir _) => None
  | o => o
  end.
Proof.
  unfold without_dir.
  destruct (m !! p) as [[d|c]|] eqn:Hp; [done| |done]. apply lookup_delete_eq.
Qed.

(** [clean] on a directory where neither the cache file nor the linker
    script is a directory. *)
Lemma clean_ok (w : World) :
  is_dir ".splache" w = false → is_dir LD_PATH w = false →
  ∃ w1, clean w = (w1, Ok tt)
        ∧ fs w1 =
          without_dir "build"
            (without_dir "assets"
               (without_dir "asm" (delete LD_PATH (delete ".splache" (fs w))))).
Proof.
  intros Hs Hl. unfold clean.
  destruct (remove_if_exists ".splache" w Hs) as (w1 & H1 & F1).
  rewrite (bind_ok _ _ _ _ _ H1).
  assert (is_dir LD_PATH w1 = false) as Hl1.
  { unfold is_dir in *. by rewrite F1, lookup_delete_ne. }
  destruct (remove_if_exists LD_PATH w1 Hl1) as (w2 & H2 & F2).
  rewrite (bind_ok _ _ _ _ _ H2).
  destruct (rmtree_eq "asm" w2) as (w3 & H3 & F3).
  rewrite (bind_ok _ _ _ _ _ H3).
  destruct (rmtree_eq "assets" w3) as (w4 & H4 & F4).
  rewrite (bind_ok _ _ _ _ _ H4).
  destruct (rmtree_eq "build" w4) as (w5 & H5 & F5).
  exists w5. split; [exact H5|]. by rewrite F5, F4, F3, F2, F1.
Qed.

Lemma clean_raise (w w1 : World) (e : exn) :
  clean w = (w1, Raise e) → e = IsADirectoryError.
Proof.
  unfold clean. intros H.
  unfold mbind at 1, M_bind at 1 in H.
  match type of H with
  | match ?m w with _ => _ end = _ => destruct (m w) as [w2 [[]|x]] eqn:H1
  end.
  2:{ inversion H; subst. by apply remove_if_exists_raise in H1. }
  unfold mbind at 1, M_bind at 1 in H.
  match type of H with
  | match ?m w2 with _ => _ end = _ => destruct (m w2) as [w3 [[]|x]] eqn:H2
  end.
  2:{ inversion H; subst. by apply remove_if_exists_raise in H2. }
  destruct (rmtree_eq "asm" w3) as (w4 & H4 & _).
  rewrite (bind_ok _ _ _ _ _ H4) in H.
  destruct (rmtree_eq "assets" w4) as (w5 & H5 & _).
  rewrite (bind_ok _ _ _ _ _ H5) in H.
  destruct (rmtree_eq "build" w5) as (w6 & H6 & _).
  rewrite H6 in H. discriminate.
Qed.

(** ** The command line *)

Section CommandLine.

Context (ROOT : Path) (split_main : M (list LinkerEntry)).

Lemma main_clean (a : Args) (w : World) :
  args_clean a = true →
  main ROOT split_main a w =
  match clean w with
  | (w1, Ok _) => (w1, Raise (SystemExit 0))
  | (w1, Raise e) => (w1, Raise e)
  end.
Proof.
  intros Hc. unfold main. rewrite Hc. unfold_monad.
  by destruct (clean w) as [w1 [[]|e]].
Qed.

Lemma main_cleansrc (a : Args) (w : World) :
  args_clean a = false → args_cleansrc a = true →
  main ROOT split_main a w = ((shutil_rmtree "src" w).1, Raise (SystemExit 0)).
Proof.
  intros Hc Hs. unfold main. rewrite Hc, Hs. unfold_monad.
  by destruct (rmtree_eq "src" w) as (w1 & -> & _).
Qed.

Lemma main_default (a : Args) (w : World) :
  args_clean a = false → args_cleansrc a = false →
  main ROOT split_main a w =
  match split_main w with
  | (w1, Ok l) => build_stuff ROOT l w1
  | (w1, Raise e) => (w1, Raise e)
  end.
Proof. intros Hc Hs. unfold main. rewrite Hc, Hs. reflexivity. Qed.

(** The loop leaves through [sys.exit] only with code 1 and only on an
    unsupported entry. *)
Lemma loop_exit_unsupported (l : list LinkerEntry) (w w1 : World) (n : Z) :
  for_each l entry_body w = (w1, Raise (SystemExit n)) →
  n = 1 ∧ Exists (λ e, unsupported e = true) l.
Proof.
  revert w. induction l as [|e l IH]; intros w H.
  - cbn in H. unfold_monad. discriminate.
  - rewrite for_each_cons in H.
    destruct (entry_body e w) as [w2 [[]|x]] eqn:He.
    + destruct (IH _ H) as [-> Hex]. split; [done|]. by apply Exists_cons_tl.
    + inversion H; subst. clear H. rewrite entry_body_eq in He.
      unfold unsupported.
      destruct (type (segment e)) as [|c t] eqn:Ht; [done|].
      destruct (Ascii.eqb c ".") eqn:Hc; [done|].
      destruct (object_path e) as [op|] eqn:Ho; [|done].
      destruct (class (segment e)) eqn:Hcl; try done.
      inversion He; subst. split; [done|]. apply Exists_cons_hd.
      rewrite Ht, Ho, Hcl. cbn. rewrite Hc. cbn.
      by rewrite bool_decide_eq_true_2 by eauto.
Qed.

Lemma build_stuff_exit_unsupported (l : list LinkerEntry) (w w1 : World) (n : Z) :
  build_stuff ROOT l w = (w1, Raise (SystemExit n)) →
  n = 1 ∧ Exists (λ e, unsupported e = true) l.
Proof.
  rewrite build_stuff_eq.
  destruct (for_each l entry_body (loop_start ROOT w)) as [w2 [[]|x]] eqn:Hl;
    [done|].
  intros [= -> ->]. by apply loop_exit_unsupported in Hl.
Qed.

(** C7: with the clean flag, whatever the other flag, the entry [src] and
    every entry outside the five clean targets are as before; when neither
    the cache file nor the linker script is a directory the command ends
    with [exit(0)], the cache file [.splache] and the linker script are
    gone, and a directory at [asm], [assets] or [build] is gone.  With the
    clean-source flag alone the command ends with [exit(0)], a directory at
    [src] is gone and every other entry, the cache file, the linker script
    and the three artifact directories among them, is as before. *)
Theorem clean_flags_frame (a : Args) (w : World) :
  (args_clean a = true →
     fs (main ROOT split_main a w).1 !! "src" = fs w !! "src"
     ∧ (∀ p, p ∉ clean_targets →
             fs (main ROOT split_main a w).1 !! p = fs w !! p)
     ∧ (is_dir ".splache" w = false → is_dir LD_PATH w = false →
          (main ROOT split_main a w).2 = Raise (SystemExit 0)
          ∧ fs (main ROOT split_main a w).1 !! ".splache" = None
          ∧ fs (main ROOT split_main a w).1 !! LD_PATH = None
          ∧ ∀ d, d ∈ ["asm"; "assets"; "build"] →
                 is_dir d (main ROOT split_main a w).1 = false
                 ∧ (is_dir d w = true →
                    fs (main ROOT split_main a w).1 !! d = None)))
  ∧ (args_clean a = false → args_cleansrc a = true →
       (main ROOT split_main a w).2 = Raise (SystemExit 0)
       ∧ is_dir "src" (main ROOT split_main a w).1 = false
       ∧ (is_dir "src" w = true →
          fs (main ROOT split_main a w).1 !! "src" = None)
       ∧ ∀ p, p ≠ "src" → fs (main ROOT split_main a w).1 !! p = fs w !! p).
Proof.
  split.
  - intros Hc. rewrite (main_clean a w Hc).
    assert (∀ p, p ∉ clean_targets →
                 fs (match clean w with
                     | (w1, Ok _) => (w1, Raise (SystemExit 0))
                     | (w1, Raise e) => (w1, Raise e)
                     end : World * result unit).1 !! p = fs w !! p) as Hframe.
    { intros p Hp. destruct (clean w) as [w1 [[]|e]] eqn:Hcl; cbn;
        by apply (clean_touches_only _ _ _ Hcl). }
    split; [|split; [exact Hframe|]].
    + apply Hframe. unfold clean_targets. intros Hin.
      repeat (apply elem_of_cons in Hin as [Hin|Hin]; [discriminate Hin|]).
      by apply not_elem_of_nil in Hin.
    + intros Hs Hl. destruct (clean_ok w Hs Hl) as (w1 & -> & F). cbn.
      split; [reflexivity|]. rewrite F.
      split.
      { rewrite !lookup_without_dir_ne by done.
        rewrite lookup_delete_ne by done. apply lookup_delete_eq. }
      split.
      { rewrite !lookup_without_dir_ne by done. apply lookup_delete_eq. }
      intros d Hd. unfold is_dir. rewrite F.
      repeat (apply elem_of_cons in Hd as [->|Hd]);
        [| | | by apply not_elem_of_nil in Hd].
      * rewrite !lookup_without_dir_ne by done. rewrite lookup_without_dir_eq.
        rewrite !lookup_delete_ne by done.
        by destruct (fs w !! "asm") as [[?|?]|].
      * rewrite !lookup_without_dir_ne by done. rewrite lookup_without_dir_eq.
        rewrite !lookup_without_dir_ne by done.
        rewrite !lookup_delete_ne by done.
        by destruct (fs w !! "assets") as [[?|?]|].
      * rewrite lookup_without_dir_eq.
        rewrite !lookup_without_dir_ne by done.
        rewrite !lookup_delete_ne by done.
        by destruct (fs w !! "build") as [[?|?]|].
  - intros Hc Hs. rewrite (main_cleansrc a w Hc Hs). cbn.
    destruct (rmtree_eq "src" w) as (w1 & -> & F). cbn. unfold is_dir.
    rewrite F. split; [reflexivity|]. rewrite lookup_without_dir_eq.
    split; [by destruct (fs w !! "src") as [[?|?]|]|].
    split; [by destruct (fs w !! "src") as [[?|?]|]|].
    intros p Hp. by apply lookup_without_dir_ne.
Qed.

(** C9: the clean path, when [clean] succeeds, the clean-source path, and
    the default path, when the splitter and the emitter both return, end
    with status 0; and when the script ends through [sys.exit] with a
    non-zero code, neither flag was given and either the splitter itself
    exited with that code or the code is 1 and the splitter's list holds an
    unsupported entry. *)
Theorem exit_status_by_path (a : Args) (w : World) :
  (args_clean a = true →
     ∀ w1, clean w = (w1, Ok tt) →
           main ROOT split_main a w = (w1, Raise (SystemExit 0))
           ∧ exit_status (main ROOT split_main a w).2 = 0)
  ∧ (args_clean a = false → args_cleansrc a = true →
       (main ROOT split_main a w).2 = Raise (SystemExit 0)
       ∧ exit_status (main ROOT split_main a w).2 = 0)
  ∧ (args_clean a = false → args_cleansrc a = false →
       ∀ l w1 w2,
         split_main w = (w1, Ok l) → build_stuff ROOT l w1 = (w2, Ok tt) →
         main ROOT split_main a w = (w2, Ok tt)
         ∧ exit_status (main ROOT split_main a w).2 = 0)
  ∧ (∀ n, (main ROOT split_main a w).2 = Raise (SystemExit n) → n ≠ 0 →
          args_clean a = false ∧ args_cleansrc a = false
          ∧ ((∃ w1, split_main w = (w1, Raise (SystemExit n)))
             ∨ (∃ l w1, split_main w = (w1, Ok l) ∧ n = 1
                        ∧ Exists (λ e, unsupported e = true) l))).
Proof.
  split; [|split; [|split]].
  - intros Hc w1 Hcl. rewrite (main_clean a w Hc), Hcl. by split.
  - intros Hc Hs. rewrite (main_cleansrc a w Hc Hs). by split.
  - intros Hc Hs l w1 w2 Hsp Hb.
    rewrite (main_default a w Hc Hs), Hsp, Hb. by split.
  - intros n Hn Hne.
    destruct (args_clean a) eqn:Hc.
    { rewrite (main_clean a w Hc) in Hn.
      destruct (clean w) as [w1 [[]|e]] eqn:Hcl; cbn in Hn.
      - by inversion Hn; subst.
      - apply clean_raise in Hcl as ->. discriminate. }
    destruct (args_cleansrc a) eqn:Hs.
    { rewrite (main_cleansrc a w Hc Hs) in Hn. cbn in Hn.
      by inversion Hn; subst. }
    split; [done|]. split; [done|].
    rewrite (main_default a w Hc Hs) in Hn.
    destruct (split_main w) as [w1 [l|e]] eqn:Hsp.
    + right. exists l, w1. split; [done|].
      destruct (build_stuff ROOT l w1) as [w2 r] eqn:Hb. cbn in Hn. subst r.
      by apply build_stuff_exit_unsupported in Hb.
    + left. cbn in Hn. inversion Hn; subst. by eauto.
Qed.

End CommandLine.

Lemma clean_flags_frame_witness :
  (fs (main sample_root (split_const [])
         {| args_clean := true; args_cleansrc := true |} dirty_world).1
     !! "src" = fs dirty_world !! "src"
   ∧ (main sample_root (split_const [])
        {| args_clean := true; args_cleansrc := true |} dirty_world).2
     = Raise (SystemExit 0)
   ∧ fs (main sample_root (split_const [])
           {| args_clean := true; args_cleansrc := true |} dirty_world).1
       !! ".splache" = None)
  ∧ ((main sample_root (split_const [])
        {| args_clean := false; args_cleansrc := true |} dirty_world).2
     = Raise (SystemExit 0)
     ∧ is_dir "src"
         (main sample_root (split_const [])
            {| args_clean := false; args_cleansrc := true |} dirty_world).1
       = false
     ∧ fs (main sample_root (split_const [])
             {| args_clean := false; args_cleansrc := true |} dirty_world).1
         !! "asm" = fs dirty_world !! "asm").
Proof.
  split.
  - destruct (proj1 (clean_flags_frame sample_root (split_const [])
                       {| args_clean := true; args_cleansrc := true |}
                       dirty_world) eq_refl) as (Hsrc & _ & Hrest).
    destruct (Hrest eq_refl eq_refl) as (Hexit & Hcache & _).
    split; [exact Hsrc|]. split; [exact Hexit | exact Hcache].
  - destruct (proj2 (clean_flags_frame sample_root (split_const [])
                       {| args_clean := false; args_cleansrc := true |}
                       dirty_world) eq_refl eq_refl)
      as (Hexit & Hdir & _ & Hframe).
    split; [exact Hexit|]. split; [exact Hdir|]. apply Hframe. discriminate.
Defined.

Lemma exit_status_by_path_witness :
  exit_status
    (main sample_root (split_const [asm_entry; c_entry])
       {| args_clean := false; args_cleansrc := true |} dirty_world).2 = 0
  ∧ exit_status
      (main sample_root (split_const [asm_entry; c_entry])
         {| args_clean := false; args_cleansrc := false |} dirty_world).2 = 0
  ∧ (args_clean {| args_clean := false; args_cleansrc := false |} = false
     ∧ args_cleansrc {| args_clean := false; args_cleansrc := false |} = false
     ∧ ((∃ w1, split_const [asm_entry; bad_entry] dirty_world
               = (w1, Raise (SystemExit 1)))
        ∨ (∃ l w1, split_const [asm_entry; bad_entry] dirty_world = (w1, Ok l)
                   ∧ 1 = 1 ∧ Exists (λ e, unsupported e = true) l))).
Proof.
  split; [|split].
  - apply (proj1 (proj2 (exit_status_by_path sample_root
                           (split_const [asm_entry; c_entry])
                           {| args_clean := false; args_cleansrc := true |}
                           dirty_world)));
      reflexivity.
  - apply (proj1 (proj2 (proj2 (exit_status_by_path sample_root
                                  (split_const [asm_entry; c_entry])
                                  {| args_clean := false;
                                     args_cleansrc := false |}
                                  dirty_world)))
             eq_refl eq_refl [asm_entry; c_entry] dirty_world
             (build_stuff sample_root [asm_entry; c_entry] dirty_world).1).
    + reflexivity.
    + vm_compute. reflexivity.
  - apply (proj2 (proj2 (proj2 (exit_status_by_path sample_root
                                  (split_const [asm_entry; bad_entry])
                                  {| args_clean := false;
                                     args_cleansrc := false |}
                                  dirty_world))) 1).
    + vm_compute. reflexivity.
    + discriminate.
Defined.

(** * Further properties of the script *)

(** ** The closure [build] on a list of object paths *)

Lemma build_step (strs : list string) (srcs : list Path) (task : string)
    (vars : list (string * string)) (io : list string) (x : Path)
    (w : World) (wr : Writer) :
  ninja w = Some wr →
  ((if String.eqb (suffix x) ".o" then built_objects_add x else mret tt) ;;
   ninja_build strs task (map str srcs) [] vars io) w
  = ({| fs := fs w;
        ninja :=
          Some (add_build
                  {| outputs := strs; rule := task; inputs := map str srcs;
                     implicit := []; variables := vars;
                     implicit_outputs := io |} wr);
        built_objects :=
          if String.eqb (suffix x) ".o" then {[x]} ∪ built_objects w
          else built_objects w;
        stdout := stdout w |}, Ok tt).
Proof.
  intros Hwr. unfold_monad.
  destruct (String.eqb (suffix x) ".o"); cbn; unfold ninja_build, set_ninja;
    cbn; by rewrite Hwr.
Qed.

Lemma build_loop (strs : list string) (srcs : list Path) (task : string)
    (vars : list (string * string)) (io : list string) (l : list Path)
    (w : World) (wr : Writer) :
  ninja w = Some wr →
  ∃ w1,
    for_each l (λ object_path,
      (if String.eqb (suffix object_path) ".o"
       then built_objects_add object_path
       else mret tt) ;;
      ninja_build strs task (map str srcs) [] vars io) w = (w1, Ok tt)
    ∧ ninja w1 =
      Some {| output := output wr; rules := rules wr;
              builds :=
                builds wr ++
                replicate (length l)
                  {| outputs := strs; rule := task; inputs := map str srcs;
                     implicit := []; variables := vars;
                     implicit_outputs := io |} |}
    ∧ (∀ p, p ∈ built_objects w1 ↔
            p ∈ built_objects w ∨ (p ∈ l ∧ suffix p = ".o"))
    ∧ stdout w1 = stdout w ∧ fs w1 = fs w.
Proof.
  revert w wr. induction l as [|x l IH]; intros w wr Hwr.
  - exists w. cbn. unfold_monad. rewrite app_nil_r.
    split; [reflexivity|]. split; [by destruct wr|].
    split; [|done]. intros p. split; [by left|].
    intros [H|[H _]]; [done|]. by apply not_elem_of_nil in H.
  - rewrite for_each_cons, (build_step _ _ _ _ _ _ _ _ Hwr).
    match goal with
    | |- context [for_each l _ ?w2] =>
        destruct (IH w2 _ eq_refl) as (w1 & H & Hn & Hb & Hs & Hf)
    end.
    exists w1. split; [exact H|]. cbn in *.
    split; [by rewrite Hn, <- app_assoc|]. split; [|done].
    intros p. rewrite Hb, elem_of_cons.
    destruct (String.eqb (suffix x) ".o") eqn:Hx.
    + apply String.eqb_eq in Hx. rewrite elem_of_union, elem_of_singleton.
      split.
      * intros [[->|H1]|[H1 H2]]; by eauto.
      * intros [H1|[[->|H1] H2]]; by eauto.
    + apply String.eqb_neq in Hx. split.
      * intros [H1|[H1 H2]]; by eauto.
      * intros [H1|[[->|H1] H2]]; by eauto.
Qed.

(** X1: called with a list of object paths while the writer is open,
    [build] writes one edge per object path, all of them the same edge
    whose outputs are the whole list (the call of [ninja.build] sits inside
    the loop), so an empty list writes nothing; the tracked set gains
    exactly the paths of the list with suffix [".o"]. *)
Theorem build_list_repeats_edge (ops srcs : list Path) (task : string)
    (vars : list (string * string)) (io : list string) (w : World)
    (wr : Writer) :
  ninja w = Some wr →
  ∃ w1 wr1,
    build (inr ops) srcs task vars io w = (w1, Ok tt)
    ∧ ninja w1 = Some wr1
    ∧ rules wr1 = rules wr
    ∧ builds wr1 =
      builds wr ++
      replicate (length ops)
        {| outputs := map str ops; rule := task; inputs := map str srcs;
           implicit := []; variables := vars; implicit_outputs := io |}
    ∧ ∀ p, p ∈ built_objects w1 ↔
           p ∈ built_objects w ∨ (p ∈ ops ∧ suffix p = ".o").
Proof.
  intros Hwr. unfold build.
  destruct (build_loop (map str ops) srcs task vars io ops w wr Hwr)
    as (w1 & H & Hn & Hb & _).
  eexists w1, _. split; [exact H|]. split; [exact Hn|].
  split; [reflexivity|]. split; [reflexivity|]. exact Hb.
Qed.

Lemma build_list_repeats_edge_witness :
  ∃ w1 wr1,
    build (inr ["a.o"; "b.bin"]) ["a.s"] "as" [] [] open_world = (w1, Ok tt)
    ∧ ninja w1 = Some wr1
    ∧ rules wr1 = []
    ∧ builds wr1 =
      [] ++
      replicate 2
        {| outputs := ["a.o"; "b.bin"]; rule := "as"; inputs := ["a.s"];
           implicit := []; variables := []; implicit_outputs := [] |}
    ∧ ∀ p, p ∈ built_objects w1 ↔
           p ∈ built_objects open_world
           ∨ (p ∈ ["a.o"; "b.bin"] ∧ suffix p = ".o").
Proof.
  apply (build_list_repeats_edge ["a.o"; "b.bin"] ["a.s"] "as" [] []
           open_world
           {| output := "/repo/build.ninja"; rules := []; builds := [] |}).
  reflexivity.
Defined.

(** ** The loop as a whole *)

(** A normal end of the body appends the entry's edge, or nothing when the
    entry is skipped, and the entry is not unsupported. *)
Lemma entry_body_ok_edge (e : LinkerEntry) (w w1 : World) (wr : Writer) :
  entry_body e w = (w1, Ok tt) → ninja w = Some wr →
  unsupported e = false
  ∧ ∃ wr1, ninja w1 = Some wr1 ∧ output wr1 = output wr
           ∧ rules wr1 = rules wr
           ∧ builds wr1 =
             builds wr ++ (if skipped e then [] else [edge_of e]).
Proof.
  rewrite entry_body_eq. unfold unsupported, skipped, edge_of. intros H Hwr.
  destruct (type (segment e)) as [|c t]; [done|]. cbn.
  destruct (Ascii.eqb c ".").
  { inversion H; subst. split; [done|]. exists wr. by rewrite app_nil_r. }
  destruct (object_path e) as [op|].
  2:{ inversion H; subst. split; [done|]. exists wr. by rewrite app_nil_r. }
  destruct (class (segment e)); inversion H; subst; cbn; rewrite Hwr; cbn;
    (split; [done|]); eexists; by repeat split.
Qed.

Lemma loop_ok_edges (l : list LinkerEntry) (w w1 : World) (wr : Writer) :
  for_each l entry_body w = (w1, Ok tt) → ninja w = Some wr →
  Forall (λ e, unsupported e = false) l
  ∧ ∃ wr1, ninja w1 = Some wr1 ∧ output wr1 = output wr
           ∧ rules wr1 = rules wr
           ∧ builds wr1 = builds wr ++ map edge_of (built_entries l).
Proof.
  revert w wr. induction l as [|e l IH]; intros w wr H Hwr.
  - cbn in H. unfold_monad. inversion H; subst. split; [constructor|].
    exists wr. by rewrite app_nil_r.
  - rewrite for_each_cons in H.
    destruct (entry_body e w) as [w2 [[]|x]] eqn:He; [|done].
    destruct (entry_body_ok_edge _ _ _ _ He Hwr)
      as (Hu & wr2 & Hwr2 & Ho2 & Hr2 & Hb2).
    destruct (IH _ _ H Hwr2) as (Hall & wr1 & Hwr1 & Ho1 & Hr1 & Hb1).
    split; [by constructor|]. exists wr1.
    split; [done|]. split; [congruence|]. split; [congruence|].
    rewrite Hb1, Hb2. unfold built_entries. cbn.
    destruct (skipped e); cbn; by rewrite <- app_assoc.
Qed.

(** The converse: entries with non-empty tags none of which is unsupported
    are all processed. *)
Lemma loop_runs_through (l : list LinkerEntry) (w : World) :
  Forall (λ e, nonempty_tag e ∧ unsupported e = false) l →
  ∃ w1, for_each l entry_body w = (w1, Ok tt).
Proof.
  intros Hl. revert w. induction Hl as [|e l [Hne Hu] Hl IH]; intros w.
  - exists w. reflexivity.
  - destruct (entry_body_continues e w Hne Hu) as [w2 Hw2].
    destruct (IH w2) as [w1 Hw1]. exists w1.
    by rewrite for_each_cons, Hw2.
Qed.

(** The loop ends normally, through [sys.exit(1)] or with [IndexError]. *)
Lemma loop_outcomes (l : list LinkerEntry) (w : World) :
  (for_each l entry_body w).2 = Ok tt
  ∨ (for_each l entry_body w).2 = Raise (SystemExit 1)
  ∨ (for_each l entry_body w).2 = Raise IndexError.
Proof.
  revert w. induction l as [|e l IH]; intros w; [by left|].
  rewrite for_each_cons.
  destruct (entry_body e w) as [w2 [[]|x]] eqn:He; [apply IH|].
  rewrite entry_body_eq in He.
  destruct (type (segment e)) as [|c t]; [inversion He; by auto|].
  destruct (Ascii.eqb c "."); [done|].
  destruct (object_path e) as [op|]; [|done].
  destruct (class (segment e)); inversion He; by auto.
Qed.

(** X2: after a normal run the writer holds one edge for each entry that is
    not skipped, in the order of the entries and without merging entries
    that share an object path, followed by the three trailing edges. *)
Theorem entry_edges_in_order (ROOT : Path) (l : list LinkerEntry)
    (w w1 : World) :
  build_stuff ROOT l w = (w1, Ok tt) →
  ∃ wr t1 t2 t3,
    ninja w1 = Some wr
    ∧ builds wr = map edge_of (built_entries l) ++ [t1; t2; t3]
    ∧ length (builds wr) = (length (built_entries l) + 3)%nat.
Proof.
  intros H.
  destruct (build_stuff_ok _ _ _ _ H) as (w0 & wr0 & Hl & Hw0 & _ & _ & Hw1).
  destruct (loop_start_ninja ROOT w) as (wrs & Hwrs & _ & _ & Hnil).
  destruct (loop_ok_edges _ _ _ _ Hl Hwrs) as (_ & wr0' & Hw0' & _ & _ & Hb).
  assert (wr0' = wr0) as -> by congruence.
  rewrite Hnil in Hb. cbn in Hb.
  eexists _, _, _, _. split; [exact Hw1|]. cbn. rewrite Hb.
  split; [reflexivity|].
  rewrite length_app, length_map. reflexivity.
Qed.

Lemma entry_edges_in_order_witness :
  ∃ wr t1 t2 t3,
    ninja (build_stuff sample_root
             [asm_entry; dot_entry; c_entry; no_object_entry; c_entry_again]
             empty_world).1 = Some wr
    ∧ builds wr =
      map edge_of
        (built_entries
           [asm_entry; dot_entry; c_entry; no_object_entry; c_entry_again])
      ++ [t1; t2; t3]
    ∧ length (builds wr) =
      (length (built_entries
                 [asm_entry; dot_entry; c_entry; no_object_entry;
                  c_entry_again]) + 3)%nat.
Proof.
  apply (entry_edges_in_order sample_root
           [asm_entry; dot_entry; c_entry; no_object_entry; c_entry_again]
           empty_world).
  vm_compute. reflexivity.
Defined.

(** X3: the emitter returns normally exactly when every entry has a
    non-empty tag and none is unsupported; and whatever the list, it ends
    normally, through [sys.exit(1)] or with [IndexError], never otherwise. *)
Theorem build_stuff_returns_iff (ROOT : Path) (l : list LinkerEntry)
    (w : World) :
  ((∃ w1, build_stuff ROOT l w = (w1, Ok tt)) ↔
   Forall (λ e, nonempty_tag e ∧ unsupported e = false) l)
  ∧ ((build_stuff ROOT l w).2 = Ok tt
     ∨ (build_stuff ROOT l w).2 = Raise (SystemExit 1)
     ∨ (build_stuff ROOT l w).2 = Raise IndexError).
Proof.
  split; [split|].
  - intros [w1 H].
    destruct (build_stuff_ok _ _ _ _ H) as (w0 & wr0 & Hl & _).
    destruct (loop_start_ninja ROOT w) as (wrs & Hwrs & _).
    destruct (loop_ok_edges _ _ _ _ Hl Hwrs) as (Hu & _).
    apply loop_ok_quiet in Hl as (Hne & _).
    apply Forall_forall. intros e He.
    split; [by apply (proj1 (Forall_forall _ _) Hne) |
            by apply (proj1 (Forall_forall _ _) Hu)].
  - intros Hl.
    destruct (loop_runs_through l (loop_start ROOT w) Hl) as [w0 Hw0].
    exists (finished w0). by rewrite build_stuff_eq, Hw0.
  - rewrite build_stuff_eq.
    pose proof (loop_outcomes l (loop_start ROOT w)) as H.
    destruct (for_each l entry_body (loop_start ROOT w)) as [w0 [[]|x]];
      [by left|exact H].
Qed.

Lemma elem_of_built_entries (e : LinkerEntry) (l : list LinkerEntry) :
  e ∈ built_entries l ↔ e ∈ l ∧ skipped e = false.
Proof.
  unfold built_entries. rewrite !list_elem_of_In, List.filter_In.
  by rewrite negb_true_iff.
Qed.

Lemma elem_of_outputs_edge_of (p : Path) (e : LinkerEntry) :
  p ∈ outputs (edge_of e) ↔ object_path e = Some p.
Proof.
  unfold edge_of. cbn. destruct (object_path e) as [op|]; cbn.
  - rewrite list_elem_of_singleton. unfold str. split; congruence.
  - split; [|done]. intros H. by apply not_elem_of_nil in H.
Qed.

(** X4: after a normal run the implicit inputs of the link edge are exactly
    the object paths with suffix [".o"] of the entries that are not skipped;
    the object path of a skipped entry is linked only if another entry
    builds it. *)
Theorem link_inputs_from_entries (ROOT : Path) (l : list LinkerEntry)
    (w w1 : World) :
  build_stuff ROOT l w = (w1, Ok tt) →
  ∃ wr es ld t2 t3,
    ninja w1 = Some wr
    ∧ builds wr = es ++ [ld; t2; t3]
    ∧ ∀ p, p ∈ implicit ld ↔
           suffix p = ".o"
           ∧ ∃ e, e ∈ l ∧ skipped e = false ∧ object_path e = Some p.
Proof.
  intros H.
  destruct (build_stuff_ok _ _ _ _ H) as (w0 & wr0 & Hl & Hw0 & _ & Htr & Hw1).
  destruct (loop_start_ninja ROOT w) as (wrs & Hwrs & _ & _ & Hnil).
  destruct (loop_ok_edges _ _ _ _ Hl Hwrs) as (_ & wr0' & Hw0' & _ & _ & Hb).
  assert (wr0' = wr0) as -> by congruence.
  rewrite Hnil in Hb. cbn in Hb.
  eexists _, (builds wr0), _, _, _. split; [exact Hw1|].
  split; [reflexivity|]. cbn. rewrite map_str.
  intros p. rewrite elem_of_elements, Htr, Hb. split.
  - intros [Hp (b & Hbin & Hpb)]. split; [exact Hp|].
    apply list_elem_of_fmap in Hbin as (e & -> & He).
    apply elem_of_built_entries in He as [He Hs].
    apply elem_of_outputs_edge_of in Hpb. by eauto.
  - intros [Hp (e & He & Hs & Ho)]. split; [exact Hp|].
    exists (edge_of e). split.
    + apply list_elem_of_fmap. exists e. split; [done|].
      by apply elem_of_built_entries.
    + by apply elem_of_outputs_edge_of.
Qed.

Lemma link_inputs_from_entries_witness :
  ∃ wr es ld t2 t3,
    ninja (build_stuff sample_root [asm_entry; dot_entry; databin_entry]
             empty_world).1 = Some wr
    ∧ builds wr = es ++ [ld; t2; t3]
    ∧ ∀ p, p ∈ implicit ld ↔
           suffix p = ".o"
           ∧ ∃ e, e ∈ [asm_entry; dot_entry; databin_entry]
                  ∧ skipped e = false ∧ object_path e = Some p.
Proof.
  apply (link_inputs_from_entries sample_root
           [asm_entry; dot_entry; databin_entry] empty_world).
  vm_compute. reflexivity.
Defined.

(** An entry with an empty tag, or an unsupported one, ends the body with
    an exception and leaves the writer as it is. *)
Lemma entry_body_fails (e : LinkerEntry) (w : World) :
  type (segment e) = EmptyString ∨ unsupported e = true →
  ∃ w1 x, entry_body e w = (w1, Raise x) ∧ ninja w1 = ninja w.
Proof.
  intros H. destruct (type (segment e)) as [|c t] eqn:Ht.
  - exists w, IndexError. by rewrite entry_body_eq, Ht.
  - destruct H as [H|H]; [done|].
    assert (nonempty_tag e) as Hne by (unfold nonempty_tag; by rewrite Ht).
    rewrite (entry_body_unsupported e w Hne H). by eauto.
Qed.

(** X5: a run that fails at an entry leaves in the build-graph file the
    rules and exactly the entry edges that a normal run on the entries
    before it writes, without the three trailing edges; the entries after
    the failing one play no part. *)
Theorem aborted_run_keeps_prefix (ROOT : Path) (pre post : list LinkerEntry)
    (e : LinkerEntry) (w w1 : World) (wr : Writer) :
  build_stuff ROOT pre w = (w1, Ok tt) →
  ninja w1 = Some wr →
  type (segment e) = EmptyString ∨ unsupported e = true →
  ∃ wr' t1 t2 t3,
    ninja (build_stuff ROOT (pre ++ e :: post) w).1 = Some wr'
    ∧ output wr' = output wr
    ∧ rules wr' = rules wr
    ∧ builds wr = builds wr' ++ [t1; t2; t3]
    ∧ (build_stuff ROOT (pre ++ e :: post) w).2 ≠ Ok tt.
Proof.
  intros H Hwr He.
  destruct (build_stuff_ok _ _ _ _ H) as (w0 & wr0 & Hl & Hw0 & _ & _ & Hw1).
  rewrite Hwr in Hw1. inversion Hw1; subst wr. clear Hw1.
  rewrite build_stuff_eq, (for_each_app _ _ _ _ _ Hl), for_each_cons.
  destruct (entry_body_fails e w0 He) as (w2 & x & -> & Hn). cbn.
  eexists wr0, _, _, _. split; [congruence|]. by repeat split.
Qed.

Lemma aborted_run_keeps_prefix_witness :
  ∃ wr' t1 t2 t3,
    ninja (build_stuff sample_root
             ([asm_entry; c_entry] ++ bad_entry :: [databin_entry])
             empty_world).1 = Some wr'
    ∧ output wr' = "/repo/build.ninja"
    ∧ rules wr'
      = rules (default {| output := EmptyString; rules := []; builds := [] |}
                 (ninja (build_stuff sample_root [asm_entry; c_entry]
                           empty_world).1))
    ∧ builds (default {| output := EmptyString; rules := []; builds := [] |}
                (ninja (build_stuff sample_root [asm_entry; c_entry]
                          empty_world).1))
      = builds wr' ++ [t1; t2; t3]
    ∧ (build_stuff sample_root
         ([asm_entry; c_entry] ++ bad_entry :: [databin_entry])
         empty_world).2 ≠ Ok tt.
Proof.
  apply (aborted_run_keeps_prefix sample_root [asm_entry; c_entry]
           [databin_entry] bad_entry empty_world
           (build_stuff sample_root [asm_entry; c_entry] empty_world).1
           (default {| output := EmptyString; rules := []; builds := [] |}
              (ninja (build_stuff sample_root [asm_entry; c_entry]
                        empty_world).1))).
  - vm_compute. reflexivity.
  - vm_compute. reflexivity.
  - right. reflexivity.
Defined.

(** ** Independence from what was there before *)

Lemma entry_body_same_session (e : LinkerEntry) (w w' : World) :
  same_session w w' →
  (entry_body e w).2 = (entry_body e w').2
  ∧ same_session (entry_body e w).1 (entry_body e w').1.
Proof.
  unfold same_session. intros [Hn Hb]. rewrite !entry_body_eq.
  destruct (type (segment e)) as [|c t]; [done|].
  destruct (Ascii.eqb c "."); [done|].
  destruct (object_path e) as [op|]; [|done].
  destruct (class (segment e)); cbn; by rewrite Hn, Hb.
Qed.

Lemma loop_same_session (l : list LinkerEntry) (w w' : World) :
  same_session w w' →
  (for_each l entry_body w).2 = (for_each l entry_body w').2
  ∧ same_session (for_each l entry_body w).1 (for_each l entry_body w').1.
Proof.
  revert w w'. induction l as [|e l IH]; intros w w' Hs; [done|].
  rewrite !for_each_cons.
  destruct (entry_body_same_session e w w' Hs) as [Hr Hs'].
  destruct (entry_body e w) as [v [[]|x]], (entry_body e w') as [v' [[]|x']];
    cbn in *; try done.
  by apply IH.
Qed.

Lemma same_edge_refl (b : Build) : same_edge b b.
Proof. by repeat split. Qed.

Lemma same_graph_refl (o : option Writer) : same_graph o o.
Proof.
  destruct o as [wr|]; [|done]. cbn. split; [done|]. split; [done|].
  apply Forall2_same_length_lookup. split; [done|].
  intros i b b' Hb Hb'. rewrite Hb in Hb'. inversion Hb'; subst.
  apply same_edge_refl.
Qed.

(** In the model, where the tracked set is listed in one fixed order, two
    runs on the same list agree on the outcome and on the writer. *)
Lemma build_stuff_same_session (ROOT : Path) (l : list LinkerEntry)
    (v v' : World) :
  (build_stuff ROOT l v).2 = (build_stuff ROOT l v').2
  ∧ ninja (build_stuff ROOT l v).1 = ninja (build_stuff ROOT l v').1.
Proof.
  rewrite !build_stuff_eq.
  assert (same_session (loop_start ROOT v) (loop_start ROOT v')) as Hs
    by done.
  destruct (loop_same_session l _ _ Hs) as [Hr [Hn Hb]].
  destruct (for_each l entry_body (loop_start ROOT v)) as [u [[]|x]],
    (for_each l entry_body (loop_start ROOT v')) as [u' [[]|x']];
    cbn in *; try done.
  split; [done|]. by rewrite Hn, Hb.
Qed.

(** X6: how the emitter ends, and what it writes up to the order in which
    the link edge lists its implicit inputs, depend on the list of entries
    only: the file is opened afresh and the tracked set starts empty, so a
    writer or a set left by an earlier run has no influence, and a second
    run on the same list leaves the same path, the same rules and the same
    edges with the same sets of implicit inputs. *)
Theorem build_stuff_ignores_earlier_runs (ROOT : Path) (l : list LinkerEntry)
    (w w' : World) :
  (build_stuff ROOT l w).2 = (build_stuff ROOT l w').2
  ∧ same_graph (ninja (build_stuff ROOT l w).1)
      (ninja (build_stuff ROOT l w').1)
  ∧ same_graph (ninja (build_stuff ROOT l (build_stuff ROOT l w).1).1)
      (ninja (build_stuff ROOT l w).1).
Proof.
  split; [apply build_stuff_same_session|]. split.
  - rewrite (proj2 (build_stuff_same_session ROOT l w w')).
    apply same_graph_refl.
  - rewrite (proj2 (build_stuff_same_session ROOT l
                      (build_stuff ROOT l w).1 w)).
    apply same_graph_refl.
Qed.

(** X7: however a run ends, the build-graph file has been opened at
    [ROOT / "build.ninja"], the names of its five rules are pairwise
    distinct, and every edge in it uses one of these rules. *)
Theorem edges_use_declared_rules (ROOT : Path) (l : list LinkerEntry)
    (w : World) :
  ∃ wr,
    ninja (build_stuff ROOT l w).1 = Some wr
    ∧ output wr = joinpath ROOT "build.ninja"
    ∧ length (rules wr) = 5%nat
    ∧ NoDup (map rule_name (rules wr))
    ∧ Forall (λ b, rule b ∈ map rule_name (rules wr)) (builds wr).
Proof.
  destruct (loop_start_ninja ROOT w) as (wrs & Hwrs & Hout & Hnames & _).
  destruct (for_each l entry_body (loop_start ROOT w)) as [w0 r] eqn:Hl.
  destruct (loop_keeps_rules _ _ _ _ _ Hwrs Hl) as (wr0 & Hwr0 & Ho & Hr).
  destruct (loop_keeps_inv _ _ _ _ (loop_start_inv ROOT w) Hl)
    as (wr0' & Hwr0' & Hedges & _).
  assert (wr0' = wr0) as -> by congruence.
  assert (NoDup (map rule_name (rules wr0))) as Hnd.
  { rewrite Hr, Hnames. apply (bool_decide_unpack _). by vm_compute. }
  assert (length (rules wr0) = 5%nat) as Hlen.
  { rewrite <- (length_map rule_name), Hr, Hnames. reflexivity. }
  assert (Forall (λ b, rule b ∈ map rule_name (rules wr0)) (builds wr0))
    as Hin.
  { rewrite Hr, Hnames. eapply Forall_impl; [exact Hedges|].
    intros b [-> | ->]; apply (bool_decide_unpack _); by vm_compute. }
  rewrite build_stuff_eq, Hl. destruct r as [[]|x]; cbn.
  - rewrite Hwr0. cbn. eexists. split; [reflexivity|]. cbn.
    split; [congruence|]. split; [done|]. split; [done|].
    apply Forall_app. split; [done|].
    rewrite Hr, Hnames.
    repeat (constructor; [apply (bool_decide_unpack _); by vm_compute|]).
    constructor.
  - exists wr0. split; [done|]. split; [congruence|]. by repeat split.
Qed.

(** ** More on the clean-up commands *)

Lemma remove_if_exists_dir (p : string) (w : World) :
  is_dir p w = true →
  (b ← os_path_exists p;
   if b : bool then os_remove p else mret tt) w = (w, Raise IsADirectoryError).
Proof.
  unfold is_dir, os_path_exists, os_remove. unfold_monad. intros Hd.
  destruct (fs w !! p) as [[d|c]|] eqn:Hp; try done.
  rewrite bool_decide_eq_true_2 by eauto. by rewrite Hp.
Qed.

Lemma remove_if_exists_absent (p : string) (w : World) :
  fs w !! p = None →
  (b ← os_path_exists p;
   if b : bool then os_remove p else mret tt) w = (w, Ok tt).
Proof.
  unfold os_path_exists. unfold_monad. intros Hp.
  by rewrite bool_decide_eq_false_2 by (rewrite Hp; by intros [? ?]).
Qed.

Lemma rmtree_not_dir (p : string) (w : World) :
  is_dir p w = false → shutil_rmtree p w = (w, Ok tt).
Proof.
  unfold is_dir, shutil_rmtree. by destruct (fs w !! p) as [[d|c]|].
Qed.

(** [clean] stops at the first of the two names that is a directory. *)
Lemma clean_blocked (w : World) :
  (is_dir ".splache" w = true → clean w = (w, Raise IsADirectoryError))
  ∧ (is_dir ".splache" w = false → is_dir LD_PATH w = true →
       ∃ w1, clean w = (w1, Raise IsADirectoryError)
             ∧ fs w1 = delete ".splache" (fs w)).
Proof.
  split.
  - intros Hs. unfold clean.
    by rewrite (bind_raise _ _ _ _ _ (remove_if_exists_dir _ _ Hs)).
  - intros Hs Hl. unfold clean.
    destruct (remove_if_exists ".splache" w Hs) as (w1 & H1 & F1).
    rewrite (bind_ok _ _ _ _ _ H1).
    assert (is_dir LD_PATH w1 = true) as Hl1.
    { unfold is_dir in *. by rewrite F1, lookup_delete_ne. }
    rewrite (bind_raise _ _ _ _ _ (remove_if_exists_dir _ _ Hl1)).
    by eauto.
Qed.

Lemma clean_ok_not_dir (w w1 : World) :
  clean w = (w1, Ok tt) →
  is_dir ".splache" w = false ∧ is_dir LD_PATH w = false.
Proof.
  intros H.
  destruct (is_dir ".splache" w) eqn:Hs.
  { by rewrite (proj1 (clean_blocked w) Hs) in H. }
  destruct (is_dir LD_PATH w) eqn:Hl; [|done].
  destruct (proj2 (clean_blocked w) Hs Hl) as (w2 & H2 & _). congruence.
Qed.

(** X8: [clean] succeeds exactly when neither [.splache] nor the linker
    script is a directory; missing files and missing directories are no
    obstacle. *)
Theorem clean_succeeds_iff (w : World) :
  (∃ w1, clean w = (w1, Ok tt)) ↔
  is_dir ".splache" w = false ∧ is_dir LD_PATH w = false.
Proof.
  split.
  - intros [w1 H]. by apply (clean_ok_not_dir w w1).
  - intros [Hs Hl]. destruct (clean_ok w Hs Hl) as (w1 & H & _). by eauto.
Qed.

(** X9: when [clean] fails, it fails with [IsADirectoryError] before any
    directory is removed: every entry other than [.splache] is as before,
    the linker script and the directories [asm], [assets] and [build]
    among them, and nothing at all has changed when [.splache] itself is
    the directory. *)
Theorem clean_failure_is_partial (w w1 : World) (e : exn) :
  clean w = (w1, Raise e) →
  e = IsADirectoryError
  ∧ (∀ p, p ≠ ".splache" → fs w1 !! p = fs w !! p)
  ∧ (is_dir ".splache" w = true → w1 = w).
Proof.
  intros H.
  destruct (is_dir ".splache" w) eqn:Hs.
  { rewrite (proj1 (clean_blocked w) Hs) in H. by inversion H. }
  destruct (is_dir LD_PATH w) eqn:Hl.
  - destruct (proj2 (clean_blocked w) Hs Hl) as (w2 & H2 & F2).
    rewrite H2 in H. inversion H; subst. split; [done|]. split; [|done].
    intros p Hp. rewrite F2. by apply lookup_delete_ne.
  - destruct (clean_ok w Hs Hl) as (w2 & H2 & _). congruence.
Qed.

Lemma clean_failure_is_partial_witness :
  IsADirectoryError = IsADirectoryError
  ∧ (∀ p, p ≠ ".splache" →
          fs (clean blocked_world).1 !! p = fs blocked_world !! p)
  ∧ (is_dir ".splache" blocked_world = true →
     (clean blocked_world).1 = blocked_world).
Proof.
  apply (clean_failure_is_partial blocked_world (clean blocked_world).1
           IsADirectoryError).
  vm_compute. reflexivity.
Defined.

(** X10: [clean] is idempotent: after a successful [clean], a second one
    succeeds and changes nothing. *)
Theorem clean_twice (w w1 : World) :
  clean w = (w1, Ok tt) → clean w1 = (w1, Ok tt).
Proof.
  intros H.
  destruct (clean_ok_not_dir w w1 H) as [Hs Hl].
  destruct (clean_ok w Hs Hl) as (w2 & H2 & F).
  assert (w2 = w1) as -> by congruence.
  assert (fs w1 !! ".splache" = None) as Hcache.
  { rewrite F, !lookup_without_dir_ne by done.
    rewrite lookup_delete_ne by done. apply lookup_delete_eq. }
  assert (fs w1 !! LD_PATH = None) as Hld.
  { rewrite F, !lookup_without_dir_ne by done. apply lookup_delete_eq. }
  assert (is_dir "asm" w1 = false) as Hasm.
  { unfold is_dir. rewrite F, !lookup_without_dir_ne by done.
    rewrite lookup_without_dir_eq.
    by destruct (delete LD_PATH (delete ".splache" (fs w)) !! "asm")
      as [[?|?]|]. }
  assert (is_dir "assets" w1 = false) as Hassets.
  { unfold is_dir. rewrite F, !lookup_without_dir_ne by done.
    rewrite lookup_without_dir_eq.
    by destruct (without_dir "asm" (delete LD_PATH (delete ".splache" (fs w)))
                   !! "assets") as [[?|?]|]. }
  assert (is_dir "build" w1 = false) as Hbuild.
  { unfold is_dir. rewrite F, lookup_without_dir_eq.
    by destruct (without_dir "assets"
                   (without_dir "asm"
                      (delete LD_PATH (delete ".splache" (fs w))))
                   !! "build") as [[?|?]|]. }
  unfold clean.
  rewrite (bind_ok _ _ _ _ _ (remove_if_exists_absent _ _ Hcache)).
  rewrite (bind_ok _ _ _ _ _ (remove_if_exists_absent _ _ Hld)).
  rewrite (bind_ok _ _ _ _ _ (rmtree_not_dir _ _ Hasm)).
  rewrite (bind_ok _ _ _ _ _ (rmtree_not_dir _ _ Hassets)).
  by apply rmtree_not_dir.
Qed.

Lemma clean_twice_witness :
  clean (clean dirty_world).1 = ((clean dirty_world).1, Ok tt).
Proof.
  apply (clean_twice dirty_world (clean dirty_world).1).
  vm_compute. reflexivity.
Defined.

(** ** The flags and the rest of the script *)

Lemma keeps_session_bind {A B : Type} (m : M A) (f : A → M B) :
  keeps_session m → (∀ a, keeps_session (f a)) → keeps_session (m ≫= f).
Proof.
  intros Hm Hf w w1 r H. unfold_monad.
  destruct (m w) as [w2 [a|e]] eqn:Hmw.
  - destruct (Hm _ _ _ Hmw) as (Hn & Hb & Hs).
    destruct (Hf a _ _ _ H) as (Hn' & Hb' & Hs'). by rewrite Hn', Hb', Hs'.
  - inversion H; subst. by apply (Hm _ _ _ Hmw).
Qed.

Lemma keeps_session_ret {A : Type} (a : A) : keeps_session (mret a : M A).
Proof. intros w w1 r H. unfold_monad. by inversion H. Qed.

Lemma keeps_session_exists (p : string) : keeps_session (os_path_exists p).
Proof. intros w w1 r H. unfold os_path_exists in H. by inversion H. Qed.

Lemma keeps_session_remove (p : string) : keeps_session (os_remove p).
Proof.
  intros w w1 r H. unfold os_remove in H.
  destruct (fs w !! p) as [[d|c]|]; by inversion H.
Qed.

Lemma keeps_session_rmtree (p : string) : keeps_session (shutil_rmtree p).
Proof.
  intros w w1 r H. unfold shutil_rmtree in H.
  destruct (fs w !! p) as [[d|c]|]; by inversion H.
Qed.

Lemma keeps_session_clean : keeps_session clean.
Proof.
  unfold clean.
  repeat (apply keeps_session_bind; [|intros _]);
    try apply keeps_session_rmtree.
  - apply keeps_session_bind; [apply keeps_session_exists|].
    intros []; [apply keeps_session_remove|apply keeps_session_ret].
  - apply keeps_session_bind; [apply keeps_session_exists|].
    intros []; [apply keeps_session_remove|apply keeps_session_ret].
Qed.

(** X11: with the clean flag or the clean-source flag the script neither
    runs the splitter nor the emitter: its effect and outcome are the same
    for every splitter and every installation root, the build-graph file
    is not opened or changed, and nothing is printed. *)
Theorem flags_bypass_split_and_emit (ROOT ROOT' : Path)
    (split_main split_main' : M (list LinkerEntry)) (a : Args) (w : World) :
  args_clean a = true ∨ args_cleansrc a = true →
  main ROOT split_main a w = main ROOT' split_main' a w
  ∧ ninja (main ROOT split_main a w).1 = ninja w
  ∧ built_objects (main ROOT split_main a w).1 = built_objects w
  ∧ stdout (main ROOT split_main a w).1 = stdout w.
Proof.
  intros Hflag. destruct (args_clean a) eqn:Hc.
  - rewrite !(main_clean _ _ a w Hc). split; [reflexivity|].
    destruct (clean w) as [w1 r] eqn:Hcl.
    destruct (keeps_session_clean _ _ _ Hcl) as (Hn & Hb & Hs).
    by destruct r as [[]|e].
  - destruct Hflag as [Hflag|Hs]; [done|].
    rewrite !(main_cleansrc _ _ a w Hc Hs). split; [reflexivity|]. cbn.
    destruct (shutil_rmtree "src" w) as [w1 r] eqn:Hrm.
    by apply (keeps_session_rmtree _ _ _ _ Hrm).
Qed.

Lemma flags_bypass_split_and_emit_witness :
  main sample_root (split_const [bad_entry])
    {| args_clean := false; args_cleansrc := true |} dirty_world
  = main "/elsewhere" (split_const [])
      {| args_clean := false; args_cleansrc := true |} dirty_world
  ∧ ninja (main sample_root (split_const [bad_entry])
             {| args_clean := false; args_cleansrc := true |} dirty_world).1
    = ninja dirty_world
  ∧ built_objects
      (main sample_root (split_const [bad_entry])
         {| args_clean := false; args_cleansrc := true |} dirty_world).1
    = built_objects dirty_world
  ∧ stdout (main sample_root (split_const [bad_entry])
              {| args_clean := false; args_cleansrc := true |} dirty_world).1
    = stdout dirty_world.
Proof.
  apply (flags_bypass_split_and_emit sample_root "/elsewhere"
           (split_const [bad_entry]) (split_const [])
           {| args_clean := false; args_cleansrc := true |} dirty_world).
  right. reflexivity.
Defined.

(** ** The exit on an unsupported entry *)

(** C1, as the code has it: when the first unsupported entry of the list
    and every entry before it have a non-empty tag, the emitter leaves
    through [sys.exit(1)] at that entry, having printed exactly one line,
    the diagnostic with that entry's tag; by then the build-graph file has
    been opened for writing at [ROOT / "build.ninja"] and holds the five
    rules, the same as a run on the empty list declares, and exactly the
    edges of the entries before the offending one that are not skipped, in
    their order, and none of the three trailing edges.  The entries after
    the offending one play no part. *)
Theorem unsupported_segment_exits (ROOT : Path) (pre post : list LinkerEntry)
    (e : LinkerEntry) (w : World) :
  Forall (λ x, nonempty_tag x ∧ unsupported x = false) pre →
  nonempty_tag e →
  unsupported e = true →
  ∃ w1 wr,
    build_stuff ROOT (pre ++ e :: post) w = (w1, Raise (SystemExit 1))
    ∧ exit_status (build_stuff ROOT (pre ++ e :: post) w).2 = 1
    ∧ stdout w1 = stdout w ++ [diagnostic e]
    ∧ ninja w1 = Some wr
    ∧ output wr = joinpath ROOT "build.ninja"
    ∧ map rule_name (rules wr) = ["as"; "cc"; "ld"; "sha1sum"; "elf"]
    ∧ rules <$> ninja (build_stuff ROOT [] w).1 = Some (rules wr)
    ∧ builds wr = map edge_of (built_entries pre).
Proof.
  intros Hpre Hne Hu.
  destruct (loop_runs_through pre (loop_start ROOT w) Hpre) as [w0 Hrun].
  destruct (loop_start_ninja ROOT w) as (wrs & Hwrs & Hout & Hnames & Hnil).
  destruct (loop_ok_edges _ _ _ _ Hrun Hwrs)
    as (_ & wr & Hwr & Ho & Hr & Hb).
  pose proof (loop_ok_quiet _ _ _ Hrun) as (_ & Hs & _).
  rewrite build_stuff_eq, (for_each_app _ _ _ _ _ Hrun), for_each_cons.
  rewrite (entry_body_unsupported e w0 Hne Hu). cbn.
  eexists _, wr. split; [reflexivity|]. split; [reflexivity|]. cbn.
  split; [by rewrite Hs, loop_start_stdout|]. split; [exact Hwr|].
  split; [congruence|]. split; [congruence|]. split.
  - rewrite build_stuff_eq. cbn. unfold_monad. cbn. rewrite Hwrs. cbn.
    by rewrite Hr.
  - by rewrite Hb, Hnil.
Qed.

Lemma unsupported_segment_exits_witness :
  ∃ w1 wr,
    build_stuff sample_root
      ([asm_entry; no_object_entry; c_entry] ++ bad_entry
         :: [empty_tag_entry; databin_entry]) empty_world
    = (w1, Raise (SystemExit 1))
    ∧ exit_status
        (build_stuff sample_root
           ([asm_entry; no_object_entry; c_entry] ++ bad_entry
              :: [empty_tag_entry; databin_entry]) empty_world).2 = 1
    ∧ stdout w1 = stdout empty_world ++ [diagnostic bad_entry]
    ∧ ninja w1 = Some wr
    ∧ output wr = joinpath sample_root "build.ninja"
    ∧ map rule_name (rules wr) = ["as"; "cc"; "ld"; "sha1sum"; "elf"]
    ∧ rules <$> ninja (build_stuff sample_root [] empty_world).1
      = Some (rules wr)
    ∧ builds wr
      = map edge_of (built_entries [asm_entry; no_object_entry; c_entry]).
Proof.
  apply (unsupported_segment_exits sample_root
           [asm_entry; no_object_entry; c_entry]
           [empty_tag_entry; databin_entry] bad_entry empty_world).
  - repeat constructor; discriminate.
  - discriminate.
  - reflexivity.
Defined.
